(** * searchViewSample: query endpoint, request cache, state container, search view

    A shallow embedding of the functional core of the search widget:

    - [src/mixins.js]: [requestMixin] (request cache) and [stateMixin]
      (observable state container);
    - [apiFetch] (the transport wrapper used by the request cache);
    - [postEndpointFactory] (the query endpoint: page counter, parameters,
      finished flag);
    - [src/search.js]: [createListing], [setListingQuery] and the ['tax-set']
      handler of [bindTaxToggles].

    JavaScript objects used as maps are [gmap string _], holding their own
    properties; a read or a write under a computed name also meets what
    every plain object inherits from [Object.prototype] ([JS.read],
    [JS.write]).  Closures over [page] and [params] become record fields;
    promises are split into the synchronous part of a call and the callback
    that runs when the response arrives.  Numbers are integers, with NaN
    for failed conversions; strings are sequences of ASCII characters. *)

From Stdlib Require Import ZArith Ascii String Lia.
From stdpp Require Import base option list gmap strings pretty fin_maps.

Open Scope Z_scope.

(** ** JavaScript values *)

Module JS.

(** Primitive values held in parameter mappings and in component state.
    Numbers are integers; [VNaN] is the result of a failed numeric
    conversion. *)
Inductive value :=
  | VBool (b : bool)
  | VNum (z : Z)
  | VNaN
  | VStr (s : string).

#[global] Instance value_eq_dec : EqDecision value.
Proof. solve_decision. Defined.

(** A plain object of primitive values: [params], [this.state], a query.
    The map holds its own properties; none is named [__proto__], which an
    assignment cannot create. *)
Abbreviation object := (gmap string value).

(** The names every plain object inherits from [Object.prototype]. *)
Definition inherited (key : string) : bool :=
  existsb (String.eqb key)
    [ "constructor"; "__proto__"; "hasOwnProperty"; "isPrototypeOf";
      "propertyIsEnumerable"; "toLocaleString"; "toString"; "valueOf";
      "__defineGetter__"; "__defineSetter__"; "__lookupGetter__";
      "__lookupSetter__" ]%string.

(** What [o[key]] gives on a plain object: [undefined], the value of an
    own property, or a member of [Object.prototype] (a function, or the
    prototype itself for [__proto__]). *)
Inductive property :=
  | Missing
  | Own (v : value)
  | Inherited.

#[global] Instance property_eq_dec : EqDecision property.
Proof. solve_decision. Defined.

(** [o[key]] *)
Definition read (o : object) (key : string) : property :=
  match o !! key with
  | Some v => Own v
  | None => if inherited key then Inherited else Missing
  end.

(** [o[key] = v] for a primitive [v]: under the name [__proto__] the
    assignment reaches the setter of [Object.prototype], which ignores a
    primitive, and the object is as before. *)
Definition write (key : string) (v : value) (o : object) : object :=
  if String.eqb key "__proto__" then o else <[key := v]> o.

(** Result of a number-producing operation: an integer or NaN. *)
Inductive number :=
  | Num (z : Z)
  | NaN.

#[global] Instance number_eq_dec : EqDecision number.
Proof. solve_decision. Defined.

Definition value_of_number (n : number) : value :=
  match n with Num z => VNum z | NaN => VNaN end.

(** Truthiness of a primitive ([!v] is its negation). *)
Definition truthy (v : value) : bool :=
  match v with
  | VBool b => b
  | VNum z => negb (z =? 0)
  | VNaN => false
  | VStr s => negb (String.length s =? 0)%nat
  end.

(** Truthiness of a property read: a missing property is [undefined]. *)
Definition truthy_prop (o : option value) : bool :=
  match o with Some v => truthy v | None => false end.

(** [typeof v == 'string' && !v.length] *)
Definition is_empty_string (v : value) : bool :=
  match v with
  | VStr s => (String.length s =? 0)%nat
  | _ => false
  end.

(** *** Numeric conversions *)

Fixpoint trim_start (s : string) : string :=
  match s with
  | String c s' => if Ascii.is_space c then trim_start s' else s
  | EmptyString => EmptyString
  end.

Definition trim (s : string) : string :=
  String.rev (trim_start (String.rev (trim_start s))).

(** Value of a digit character in bases up to 16. *)
Definition digit_value (c : ascii) : option Z :=
  let n := Z.of_nat (nat_of_ascii c) in
  if (48 <=? n) && (n <=? 57) then Some (n - 48)
  else if (97 <=? n) && (n <=? 102) then Some (n - 87)
  else if (65 <=? n) && (n <=? 70) then Some (n - 55)
  else None.

(** Longest prefix of radix-[r] digits; [acc] is [None] until a digit has
    been read. *)
Fixpoint parse_digits (r : Z) (acc : option Z) (s : string) : option Z :=
  match s with
  | String c s' =>
      match digit_value c with
      | Some d =>
          if d <? r then parse_digits r (Some (default 0 acc * r + d)) s'
          else acc
      | None => acc
      end
  | EmptyString => acc
  end.

(** As [parse_digits], but every character must be a digit. *)
Fixpoint all_digits (r : Z) (acc : option Z) (s : string) : option Z :=
  match s with
  | String c s' =>
      match digit_value c with
      | Some d =>
          if d <? r then all_digits r (Some (default 0 acc * r + d)) s'
          else None
      | None => None
      end
  | EmptyString => acc
  end.

Definition number_of_option (o : option Z) : number :=
  match o with Some z => Num z | None => NaN end.

(** [parseInt(s)] without a radix: leading white space is skipped, a sign
    is read, a [0x] prefix selects base 16, and the longest run of digits
    is converted; no digit at all gives NaN. *)
Definition parseInt (s : string) : number :=
  let s1 := trim_start s in
  let '(sign, s2) :=
    match s1 with
    | String "-" r => (-1, r)
    | String "+" r => (1, r)
    | _ => (1, s1)
    end in
  let '(radix, s3) :=
    match s2 with
    | String "0" (String "x" r) | String "0" (String "X" r) => (16, r)
    | _ => (10, s2)
    end in
  number_of_option (Z.mul sign <$> parse_digits radix None s3).

(** What a string denotes when it is converted to a number: an integer; a
    number that is not an integer (a fraction or an infinity), which this
    development does not represent; or no number at all. *)
Inductive literal :=
  | Integer (z : Z)
  | Fractional
  | NotNumeric.

(** Longest prefix of decimal digits, read on top of [acc]: the value, the
    number of digits read on top of [n], and the rest of the string. *)
Fixpoint read_digits (acc : Z) (n : nat) (s : string) : Z * nat * string :=
  match s with
  | String c s' =>
      let d := Z.of_nat (nat_of_ascii c) - 48 in
      if (0 <=? d) && (d <=? 9) then read_digits (acc * 10 + d) (S n) s'
      else (acc, n, s)
  | EmptyString => (acc, n, s)
  end.

Definition read_sign (s : string) : Z * string :=
  match s with
  | String "-" r => (-1, r)
  | String "+" r => (1, r)
  | _ => (1, s)
  end.

(** The exponent part that ends a decimal literal: none, or [e] or [E], a
    sign and at least one digit; nothing may follow. *)
Definition read_exponent (s : string) : option Z :=
  match s with
  | EmptyString => Some 0
  | String "e" r | String "E" r =>
      let '(sign, r) := read_sign r in
      match read_digits 0 0 r with
      | (e, S _, EmptyString) => Some (sign * e)
      | _ => None
      end
  | _ => None
  end.

(** A signed decimal literal: [Infinity], or digits with an optional
    fraction and an optional exponent, with at least one digit before the
    exponent.  Its value is [mantissa * 10 ^ (exponent - fraction digits)],
    computed exactly. *)
Definition decimal_literal (s : string) : literal :=
  let '(sign, s) := read_sign s in
  if String.eqb s "Infinity" then Fractional
  else
    let '(whole, n, s) := read_digits 0 0 s in
    let '(mantissa, m, s) :=
      match s with
      | String "." r => read_digits whole 0 r
      | _ => (whole, 0%nat, s)
      end in
    if (n + m =? 0)%nat then NotNumeric
    else
      match read_exponent s with
      | None => NotNumeric
      | Some e =>
          let k := e - Z.of_nat m in
          if 0 <=? k then Integer (sign * (mantissa * 10 ^ k))
          else if mantissa mod 10 ^ (- k) =? 0
               then Integer (sign * (mantissa / 10 ^ (- k)))
               else Fractional
      end.

Definition literal_of_option (o : option Z) : literal :=
  match o with Some z => Integer z | None => NotNumeric end.

(** The numeric literal a string holds: surrounding white space is
    dropped, the empty string is 0, the prefixes [0x], [0o] and [0b] select
    the base of an unsigned integer, anything else is read as a decimal
    literal; the whole string must be consumed. *)
Definition string_literal (s : string) : literal :=
  match trim s with
  | EmptyString => Integer 0
  | String "0" (String "x" r) | String "0" (String "X" r) =>
      literal_of_option (all_digits 16 None r)
  | String "0" (String "o" r) | String "0" (String "O" r) =>
      literal_of_option (all_digits 8 None r)
  | String "0" (String "b" r) | String "0" (String "B" r) =>
      literal_of_option (all_digits 2 None r)
  | r => decimal_literal r
  end.

(** [Number(s)]: the integer the string denotes.  A string that denotes a
    fraction or an infinity has a value this development cannot hold; it
    is given NaN here, which is right for [==] against an integer, and the
    statements about arithmetic leave such strings out ([integral]). *)
Definition StringToNumber (s : string) : number :=
  match string_literal s with
  | Integer z => Num z
  | Fractional | NotNumeric => NaN
  end.

(** [ToNumber] of a property read: [undefined] converts to NaN, and so
    does a member of [Object.prototype]. *)
Definition ToNumber (p : property) : number :=
  match p with
  | Missing | Inherited => NaN
  | Own (VBool b) => Num (if b then 1 else 0)
  | Own (VNum z) => Num z
  | Own VNaN => NaN
  | Own (VStr s) => StringToNumber s
  end.

(** The property read converts to an integer or to NaN: it is not a
    string that denotes a fraction or an infinity. *)
Definition integral (p : property) : Prop :=
  match p with
  | Own (VStr s) => string_literal s ≠ Fractional
  | _ => True
  end.

(** [a * b] *)
Definition mul (a b : number) : number :=
  match a, b with
  | Num x, Num y => Num (x * y)
  | _, _ => NaN
  end.

(** [a >= b]: false as soon as one side is NaN. *)
Definition ge (a b : number) : bool :=
  match a, b with
  | Num x, Num y => y <=? x
  | _, _ => false
  end.

(** *** Strings and arrays of strings *)

(** [s.split(',')] for a single-character separator. *)
Fixpoint split (sep : ascii) (s : string) : list string :=
  match s with
  | EmptyString => [EmptyString]
  | String c s' =>
      if Ascii.eqb c sep then EmptyString :: split sep s'
      else match split sep s' with
           | w :: ws => String c w :: ws
           | [] => [String c EmptyString]
           end
  end.

(** [xs.join(',')]; [join()] uses the same separator. *)
Fixpoint join (sep : string) (xs : list string) : string :=
  match xs with
  | [] => EmptyString
  | [x] => x
  | x :: rest => x +:+ sep +:+ join sep rest
  end.

(** [xs.filter(v => v)] on strings: the empty string is falsy. *)
Definition filter_truthy (xs : list string) : list string :=
  List.filter (fun v => negb (String.length v =? 0)%nat) xs.

(** [v == w] on primitives: two strings are compared as strings; in every
    other case both sides are converted to numbers, and NaN is equal to
    nothing. *)
Definition loose_equals (v w : value) : bool :=
  match v, w with
  | VStr a, VStr b => String.eqb a b
  | _, _ =>
      match ToNumber (Own v), ToNumber (Own w) with
      | Num x, Num y => x =? y
      | _, _ => false
      end
  end.

(** A computation that may throw a [TypeError]. *)
Inductive outcome (A : Type) :=
  | Ok (a : A)
  | TypeError.
Arguments Ok {A} a.
Arguments TypeError {A}.

End JS.

Import JS.

(** ** Event bus and observable state container ([stateMixin]) *)

Module StateMixin.

(** One publication: [publish(name, ...args)]. *)
Record event := Event {
  ev_name : string;
  ev_args : list object
}.

#[global] Instance event_eq_dec : EqDecision event.
Proof. solve_decision. Defined.

(** An object composed with [stateMixin()]: its [state] and the sequence of
    events it has published so far. *)
Record container := Container {
  state : object;
  published : list event
}.

(** Modelled from the spec: [eventBusFactory] lives in [./EventBus], which is
    not among the sources.  [publish(eventName, ...args)] invokes the
    handlers subscribed to [eventName] synchronously with the arguments; the
    embedding records the publication, which is what the handlers are
    driven by. *)
Definition publish (name : string) (args : list object) (c : container)
  : container :=
  {| state := state c; published := published c ++ [Event name args] |}.

(** [equal] of the [deep-equal] package, called without options, on flat
    objects of primitives: the two objects have as many keys, and every key
    of the first is a key of the second with a value equal by [==]. *)
Definition equal (a b : object) : bool :=
  bool_decide (size a = size b) &&
  forallb (fun kv : string * value =>
             match b !! kv.1 with
             | Some w => loose_equals kv.2 w
             | None => false
             end) (map_to_list a).

(** [Object.assign({}, target, source)]: keys of [source] win. *)
Definition assign (target source : object) : object := source ∪ target.

(** [setState(data = {})] *)
Definition setState (data : object) (c : container) : container :=
  let prevState := state c in
  let newState := assign (state c) data in
  if negb (equal newState (state c)) then
    publish "state-set" [newState; prevState]
      {| state := newState; published := published c |}
  else c.

(** [stateMixin(initialState = {})] *)
Definition stateMixin (initialState : object) : container :=
  {| state := initialState; published := [] |}.

(** Number of publications of the event [name]. *)
Definition count_published (name : string) (c : container) : nat :=
  length (List.filter (fun e => String.eqb (ev_name e) name) (published c)).

End StateMixin.

(** ** Transport and request cache ([apiFetch], [requestMixin]) *)

Module RequestMixin.

(** One call of the browser's [fetch] made by [apiFetch]: the endpoint
    appended to [Global.api], the method and the body option. *)
Record netcall := NetCall {
  nc_endpoint : string;
  nc_method : string;
  nc_body : option string
}.

#[global] Instance netcall_eq_dec : EqDecision netcall.
Proof. solve_decision. Defined.

(** [JSON.stringify({})], the body [apiFetch] is given by the cache, which
    passes none. *)
Definition default_body : string := "{}".


(** [apiFetch(endpoint, method = 'get', body = {})]: issues one network
    call; the promise it returns is identified by the position of the call
    in the log.  The body is sent for ['post'] only.  The headers of the
    call and [handleError], which is chained on the promise and is not
    among the sources, are left out. *)
Definition apiFetch (endpoint : string) (method : option string)
    (network : list netcall) : list netcall * nat :=
  let method := default "get"%string method in
  let call := {| nc_endpoint := endpoint; nc_method := method;
                 nc_body := if String.eqb method "post"
                            then Some default_body else None |} in
  (network ++ [call], length network).

(** The closure of [requestMixin()]: the [requests] object and the network
    calls made through it. *)
Record cache := Cache {
  requests : gmap string nat;
  network : list netcall
}.

(** [requestMixin()] *)
Definition requestMixin : cache := {| requests := ∅; network := [] |}.

(** [fetch(request = '', method)].  The result is
    [requests[request].then(res => res.clone())], identified by the cached
    promise it is chained on.  [requests] is a plain object: under a name
    it inherits from [Object.prototype] and does not hold itself,
    [requests[request]] is that member, which is truthy, so that no call is
    made, and which has no [then] method, so that the call throws. *)
Definition fetch (request : string) (method : option string) (c : cache)
  : outcome (cache * nat) :=
  match requests c !! request with
  | Some p => Ok (c, p)
  | None =>
      if inherited request then TypeError
      else
        let '(net, p) := apiFetch request method (network c) in
        Ok ({| requests := <[request := p]> (requests c); network := net |}, p)
  end.





(** *** Responses *)

(** What the server answered: headers and JSON text. *)
Record response := Response {
  headers : gmap string string;
  body : string
}.

(** A [Response] object in the page: its content and whether its body
    stream has been read. *)
Record response_object := ResponseObject {
  content : response;
  bodyUsed : bool
}.

(** [res.clone()]: a new object with the same content and an unread body;
    throws when the body of [res] has been read. *)
Definition clone (l : nat) (heap : list response_object)
  : outcome (list response_object * nat) :=
  match heap !! l with
  | Some o =>
      if bodyUsed o then TypeError
      else Ok (heap ++ [{| content := content o; bodyUsed := false |}],
               length heap)
  | None => TypeError
  end.

(** [res.json()]: reads the body, which can be done once. *)
Definition json (l : nat) (heap : list response_object)
  : outcome (list response_object * string) :=
  match heap !! l with
  | Some o =>
      if bodyUsed o then TypeError
      else Ok (<[l := {| content := content o; bodyUsed := true |}]> heap,
               body (content o))
  | None => TypeError
  end.

(** A page session around one request cache: the cache, the response
    objects, the cached promises that have resolved (with the object they
    resolved to), the promise each [fetch] call that returned was given,
    and the copy each consumer was handed. *)
Record session := Session {
  s_cache : cache;
  s_heap : list response_object;
  s_settled : gmap nat nat;
  s_calls : list (string * option string * nat);
  s_received : list (nat * nat)
}.

Definition new_session : session :=
  {| s_cache := requestMixin; s_heap := []; s_settled := ∅;
     s_calls := []; s_received := [] |}.

(** What can happen in a session. *)
Inductive action :=
  | CallFetch (request : string) (method : option string)
      (* a component calls [fetch(request, method)] *)
  | Settle (p : nat) (r : response)
      (* the transport resolves the promise of network call [p] *)
  | Deliver (p : nat)
      (* a [then(res => res.clone())] chained on promise [p] runs *)
  | ReadJson (l : nat)
      (* a consumer reads the copy it received *).

(** One step; [None] when the action cannot happen in this state (the
    promise is unknown or unsettled, the object was not handed out) or
    when the callback throws.  A [fetch] call that throws has changed
    nothing, and the session goes on as it was. *)
Definition step (a : action) (s : session) : option session :=
  match a with
  | CallFetch request method =>
      match fetch request method (s_cache s) with
      | Ok (c, p) =>
          Some {| s_cache := c; s_heap := s_heap s; s_settled := s_settled s;
                  s_calls := s_calls s ++ [(request, method, p)];
                  s_received := s_received s |}
      | TypeError => Some s
      end
  | Settle p r =>
      if bool_decide (p < length (network (s_cache s)))%nat then
        match s_settled s !! p with
        | Some _ => None
        | None =>
            Some {| s_cache := s_cache s;
                    s_heap := s_heap s ++ [{| content := r; bodyUsed := false |}];
                    s_settled := <[p := length (s_heap s)]> (s_settled s);
                    s_calls := s_calls s;
                    s_received := s_received s |}
        end
      else None
  | Deliver p =>
      match s_settled s !! p with
      | Some l =>
          match clone l (s_heap s) with
          | Ok (h, l') =>
              Some {| s_cache := s_cache s; s_heap := h;
                      s_settled := s_settled s; s_calls := s_calls s;
                      s_received := s_received s ++ [(p, l')] |}
          | TypeError => None
          end
      | None => None
      end
  | ReadJson l =>
      if bool_decide (l ∈ (s_received s).*2) then
        match json l (s_heap s) with
        | Ok (h, _) =>
            Some {| s_cache := s_cache s; s_heap := h;
                    s_settled := s_settled s; s_calls := s_calls s;
                    s_received := s_received s |}
        | TypeError => None
        end
      else None
  end.

(** A sequence of actions, all of which must be possible. *)
Fixpoint run (acts : list action) (s : session) : option session :=
  match acts with
  | [] => Some s
  | a :: rest =>
      match step a s with
      | Some s' => run rest s'
      | None => None
      end
  end.

End RequestMixin.

(** ** Query endpoint ([postEndpointFactory]) *)

Module PostEndpoint.
Import StateMixin RequestMixin.

(** The endpoint object: the arguments of the factory, the closure
    variables [page] and [params], the state container and the request
    cache it is composed with, and the warnings it has sent to the
    console. *)
Record endpoint := Endpoint {
  pathname : string;
  config : object;
  method : string;
  page : Z;
  params : object;
  box : container;
  reqs : cache;
  console : list string
}.

(** What a method hands back to its caller. *)
Inductive returned :=
  | Undefined                (* [return] without a value *)
  | BodyOf (p : nat)         (* promise of the decoded body of the copy of
                                the response of network promise [p] *)
  | Resolved                 (* [new Promise(r => r())] *)
  | Thrown                   (* no value: the call threw a [TypeError] *).

Definition with_page (n : Z) (e : endpoint) : endpoint :=
  {| pathname := pathname e; config := config e; method := method e;
     page := n; params := params e; box := box e; reqs := reqs e;
     console := console e |}.

Definition with_params (ps : object) (e : endpoint) : endpoint :=
  {| pathname := pathname e; config := config e; method := method e;
     page := page e; params := ps; box := box e; reqs := reqs e;
     console := console e |}.

Definition with_box (b : container) (e : endpoint) : endpoint :=
  {| pathname := pathname e; config := config e; method := method e;
     page := page e; params := params e; box := b; reqs := reqs e;
     console := console e |}.

Definition with_reqs (c : cache) (e : endpoint) : endpoint :=
  {| pathname := pathname e; config := config e; method := method e;
     page := page e; params := params e; box := box e; reqs := c;
     console := console e |}.

Definition warn (msg : string) (e : endpoint) : endpoint :=
  {| pathname := pathname e; config := config e; method := method e;
     page := page e; params := params e; box := box e; reqs := reqs e;
     console := console e ++ [msg] |}.

Definition missing_total_warning : string :=
  "postEndpoint is meant to work with a WP Rest API response, which should contain an 'X-WP-TOTAL' headeer, stating the total number of posts in the query. The endpoint uses this to detect when there are no more posts to load.".

(** [getParams()] *)
Definition getParams (e : endpoint) : object := params e.

(** [getParam(key = '')]: [Object.assign({}, params)[key]], a read of a
    plain object. *)
Definition getParam (key : string) (e : endpoint) : property :=
  read (params e) key.

(** [getPage()] *)
Definition getPage (e : endpoint) : Z := page e.

(** [this.state.isFinished] as a condition. *)
Definition isFinished (e : endpoint) : bool :=
  truthy_prop (state (box e) !! "isFinished").

(** [clearQuery()] *)
Definition clearQuery (e : endpoint) : endpoint := with_params (config e) e.

(** Modelled from the spec: [mapObject] of [./utils] is not among the
    sources; from its callers it visits every (key, value) entry of the
    object, and the spec says of this loop that it "deletes any parameter
    whose value is an empty string". *)
Definition delete_empty (ps : object) : object :=
  filter (fun kv : string * value => is_empty_string kv.2 = false) ps.

Section WithSerializer.

(** [serializeObject] of [./utils], which is not among the sources: it turns
    the parameters into a query string. *)
Variable serializeObject : object -> string.

(** The synchronous part of [get()]: the request string is built, which
    increments [page]; a finished endpoint returns nothing, otherwise the
    request goes through the cache, and [get()] throws if [fetch] does. *)
Definition get (e : endpoint) : endpoint * returned :=
  let next := page e + 1 in
  let e := with_page next e in
  let request :=
    pathname e +:+ "?" +:+
    serializeObject (assign (params e) {[ "page"%string := VNum next ]}) in
  if isFinished e then (e, Undefined)
  else
    match fetch request (Some (method e)) (reqs e) with
    | Ok (c, p) => (with_reqs c e, BodyOf p)
    | TypeError => (e, Thrown)
    end.

(** The callback of [get()], run with the copy [res] of the response; it
    returns [res.json()]. *)
Definition get_then (res : response) (e : endpoint) : endpoint * string :=
  match headers res !! "X-WP-TOTAL"%string with
  | None | Some EmptyString => (warn missing_total_warning e, body res)
  | Some total =>
      let isFinished :=
        ge (mul (Num (page e)) (ToNumber (getParam "per_page" e)))
           (parseInt total) in
      let e :=
        with_box
          (setState
             {[ "foundPosts"%string := value_of_number (parseInt total);
                "isFinished"%string := VBool isFinished ]} (box e)) e in
      let e :=
        if isFinished then with_box (publish "listing-finished" [] (box e)) e
        else e in
      (e, body res)
  end.

(** [setQuery(query, runQuery = true)] *)
Definition setQuery (query : object) (runQuery : bool) (e : endpoint)
  : endpoint * returned :=
  let e := with_page 0 e in
  let e := with_box (setState {[ "isFinished"%string := VBool false ]} (box e)) e in
  let e := with_params (assign (params e) query) e in
  let e := with_params (delete_empty (params e)) e in
  if runQuery then get e else (e, Resolved).

(** [postEndpointFactory(pathname, config = {}, parseURL = false,
    method = 'GET')]; [url] is what [extractURLParameters()] reads from the
    address of the page. *)
Definition postEndpointFactory (pathname : string) (config : object)
    (parseURL : bool) (method : string) (url : object) : endpoint :=
  let endpoint :=
    {| pathname := pathname; config := config; method := method;
       page := 0; params := config;
       box := {| state := {[ "isFinished"%string := VBool false;
                             "foundPosts"%string := VNum 0 ]};
                 published := [] |};
       reqs := requestMixin; console := [] |} in
  if parseURL then (setQuery url true endpoint).1 else endpoint.

(** What can happen to an endpoint after its construction. *)
Inductive call :=
  | Get
  | GetThen (res : response)
  | SetQuery (query : object) (runQuery : bool)
  | ClearQuery.

Definition run_call (c : call) (e : endpoint) : endpoint :=
  match c with
  | Get => (get e).1
  | GetThen res => (get_then res e).1
  | SetQuery query runQuery => (setQuery query runQuery e).1
  | ClearQuery => clearQuery e
  end.

Definition run_calls (cs : list call) (e : endpoint) : endpoint :=
  fold_left (fun e c => run_call c e) cs e.

End WithSerializer.

End PostEndpoint.

(** ** Search view ([src/search.js]) *)

Module SearchView.
Import StateMixin RequestMixin PostEndpoint.

(** Values found in a listing configuration. *)
Inductive jsv :=
  | JUndefined
  | JNull
  | JPrim (v : value)
  | JFunction (arity : nat) (source : string)
  | JElement (id : nat)
  | JObject (o : object).

(** A configuration object: [{ template, rootEl, pathname, ... }]. *)
Abbreviation options := (gmap string jsv).

(** [listingDefaults] *)
Definition listingDefaults : options :=
  {[ "searchParam"%string := JPrim (VStr "search");
     "noResultsTemplate"%string := JNull;
     "parseURL"%string := JPrim (VBool false) ]}.

(** Reading a property; a missing one is [undefined]. *)
Definition prop (o : options) (k : string) : jsv :=
  default JUndefined (o !! k).

Definition js_truthy (x : jsv) : bool :=
  match x with
  | JUndefined | JNull => false
  | JPrim v => truthy v
  | JFunction _ _ | JElement _ | JObject _ => true
  end.

(** [typeof x !== 'function'] *)
Definition not_a_function (x : jsv) : bool :=
  match x with
  | JFunction _ _ => false
  | _ => true
  end.

(** [x.length]: reading a property of [undefined] or [null] throws; a
    string has its length, a function its arity, an object its own entry;
    other values have none. *)
Definition js_length (x : jsv) : outcome jsv :=
  match x with
  | JUndefined | JNull => TypeError
  | JPrim (VStr s) => Ok (JPrim (VNum (Z.of_nat (String.length s))))
  | JPrim _ => Ok JUndefined
  | JFunction arity _ => Ok (JPrim (VNum (Z.of_nat arity)))
  | JElement _ => Ok JUndefined
  | JObject o => Ok (from_option JPrim JUndefined (o !! "length"%string))
  end.

(** The string a value contributes to [pathname + '?' + ...]. *)
Definition js_to_string (x : jsv) : string :=
  match x with
  | JUndefined => "undefined"
  | JNull => "null"
  | JPrim (VBool b) => if b then "true" else "false"
  | JPrim (VNum z) => pretty z
  | JPrim VNaN => "NaN"
  | JPrim (VStr s) => s
  | JFunction _ source => source
  | JElement _ => "[object HTMLElement]"
  | JObject _ => "[object Object]"
  end.

(** Characters of a string as an object indexed from 0, which is what
    [Object.assign({}, s)] copies. *)
Fixpoint chars_from (i : nat) (s : string) : object :=
  match s with
  | EmptyString => ∅
  | String c s' => <[pretty i := VStr (String c EmptyString)]> (chars_from (S i) s')
  end.

(** [Object.assign({}, config)] with the default [config = {}]. *)
Definition config_object (x : jsv) : object :=
  match x with
  | JObject o => o
  | JPrim (VStr s) => chars_from 0 s
  | _ => ∅
  end.

(** A listing: the merged options and the endpoint created for it. *)
Record listing := Listing {
  l_options : options;
  l_endpoint : endpoint
}.

(** The view instance: the state container, the listings and the console. *)
Record view := View {
  v_box : container;
  listings : gmap string listing;
  v_console : list string
}.

Definition console_warn (msg : string) (v : view) : view :=
  {| v_box := v_box v; listings := listings v;
     v_console := v_console v ++ [msg] |}.

(** The view with the listing [l] as its own entry [name]. *)
Definition with_listing (name : string) (l : listing) (v : view) : view :=
  {| v_box := v_box v; listings := <[name := l]> (listings v);
     v_console := v_console v |}.

(** [this.listings[name] = l]: the listing becomes the entry [name] of
    [listings], except under the name [__proto__], where the assignment
    makes [l] the prototype of [listings] and adds no entry.  Reading
    [listings] under a name it does not hold then gives [undefined] or an
    inherited value without an [endpoint], before and after. *)
Definition register (name : string) (l : listing) (v : view) : view :=
  if String.eqb name "__proto__" then v else with_listing name l v.

Definition view_setState (data : object) (v : view) : view :=
  {| v_box := setState data (v_box v); listings := listings v;
     v_console := v_console v |}.

Definition warn_rootEl : string :=
  "the listing object is missing an 'rootEl' HTML Element".
Definition warn_template : string :=
  "You are either missing a 'template' property or the template passed is not a function".
Definition warn_pathname : string :=
  "The 'pathname' passed to this listing is empty, you must add a URL that this listing will query".
Definition warn_searchParam : string :=
  "You must specify a 'searchParam' property, which will get used as the search query parameter for the endpoint".

Section WithEnvironment.

Variable serializeObject : object -> string.

(** The query string of the page, as [extractURLParameters()] reads it. *)
Variable url : object.

(** [createListing(name = '', listingConfig = {})] *)
Definition createListing (name : string) (listingConfig : options) (v : view)
  : outcome view :=
  let listingOptions := listingConfig ∪ listingDefaults in
  let rootEl := prop listingOptions "rootEl" in
  let pathname := prop listingOptions "pathname" in
  let template := prop listingOptions "template" in
  let searchParam := prop listingOptions "searchParam" in
  let config := prop listingOptions "config" in
  let parseURL := prop listingOptions "parseURL" in
  let warning message :=
    console_warn (name +:+ " listing error: " +:+ message) v in
  if negb (js_truthy rootEl) then Ok (warning warn_rootEl)
  else if negb (js_truthy template) || not_a_function template
  then Ok (warning warn_template)
  else
    match js_length pathname with
    | TypeError => TypeError
    | Ok len =>
        if negb (js_truthy len) then Ok (warning warn_pathname)
        else
          match js_length searchParam with
          | TypeError => TypeError
          | Ok len =>
              if negb (js_truthy len) then Ok (warning warn_searchParam)
              else
                Ok (register name
                      {| l_options := listingOptions;
                         l_endpoint :=
                           postEndpointFactory serializeObject
                             (js_to_string pathname) (config_object config)
                             (js_truthy parseURL) "GET" url |} v)
          end
    end.

(** The loop of [searchViewFactory] that creates the listings of the
    configuration; an exception leaves the loop. *)
Fixpoint createListings (cfg : list (string * options)) (v : view)
  : outcome view :=
  match cfg with
  | [] => Ok v
  | (name, config) :: rest =>
      match createListing name config v with
      | Ok v' => createListings rest v'
      | TypeError => TypeError
      end
  end.

Definition warn_no_listings : string :=
  "You have not specified any listings to use in the search module".

(** [searchViewFactory(el, config)], for the listings of [config]: the
    instance starts with the default state and no listing, a configuration
    without listings is warned about, and the listings are created in
    turn. *)
Definition searchViewFactory (cfg : list (string * options)) : outcome view :=
  let instance :=
    {| v_box := stateMixin {[ "loading"%string := VBool false;
                              "visible"%string := VBool false;
                              "foundPosts"%string := VNum 0 ]};
       listings := ∅; v_console := [] |} in
  let instance :=
    match cfg with
    | [] => console_warn warn_no_listings instance
    | _ => instance
    end in
  createListings cfg instance.

(** The synchronous part of [setListingQuery(listing, query)], for the
    listing stored under [name]; the callback chained on the promise of
    [setQuery] renders the posts.  Chaining on [undefined] throws. *)
Definition setListingQuery (name : string) (l : listing) (query : object)
    (v : view) : outcome view :=
  let v := view_setState {[ "loading"%string := VBool true ]} v in
  let '(e, r) := setQuery serializeObject query true (l_endpoint l) in
  let v := with_listing name {| l_options := l_options l; l_endpoint := e |} v in
  match r with
  | Undefined | Thrown => TypeError
  | _ => Ok v
  end.

(** Modelled from the spec: [inArray] of [./utils] is not among the
    sources; the toggle "adds or removes" a slug according to whether it is
    among the active ones. *)
Definition inArray (x : string) (xs : list string) : bool :=
  bool_decide (x ∈ xs).

(** [(getParam(tax) || '')] followed by [.split(',')]: a falsy value gives
    the empty string, a string is split, any other truthy value, a member
    of [Object.prototype] included, has no [split] method. *)
Definition split_param (p : property) : outcome (list string) :=
  match p with
  | Own (VStr s) => Ok (split "," s)
  | Own v => if truthy v then TypeError else Ok (split "," EmptyString)
  | Missing => Ok (split "," EmptyString)
  | Inherited => TypeError
  end.

(** The handler of ['tax-set'] in [bindTaxToggles].  [this.listings] is
    read under the name given: without a listing of that name the read
    gives [undefined] or an inherited member, and reading the [endpoint] of
    the one or [getParam] of the missing [endpoint] of the other throws. *)
Definition on_tax_set (tax slug listingName : string) (shouldToggle : bool)
    (v : view) : outcome view :=
  match listings v !! listingName with
  | None => TypeError
  | Some listing =>
      match split_param (getParam tax (l_endpoint listing)) with
      | TypeError => TypeError
      | Ok parts =>
          let currentQuery := filter_truthy parts in
          let nextQuery :=
            if shouldToggle then
              if inArray slug currentQuery
              then List.filter (fun s => negb (String.eqb s slug)) currentQuery
              else currentQuery ++ [slug]
            else [slug] in
          let query : object := write tax (VStr (join "," nextQuery)) ∅ in
          if String.eqb (join "," currentQuery) (join "," nextQuery) then Ok v
          else setListingQuery listingName listing query v
      end
  end.

(** What [getParam(tax)] gives on the endpoint of the listing [name], if
    there is such a listing. *)
Definition listing_param (name tax : string) (v : view) : option property :=
  (fun l => getParam tax (l_endpoint l)) <$> listings v !! name.

End WithEnvironment.

End SearchView.

(** ** Predicates and sample data used in the statements *)

(** No value of the object is NaN. *)
Definition no_NaN (o : object) : Prop :=
  map_Forall (fun (_ : string) v => v ≠ VNaN) o.

(** No key of the object holds the empty string. *)
Definition no_empty_string (o : object) : Prop :=
  map_Forall (fun (_ : string) v => v ≠ VStr EmptyString) o.

(** The [isFinished] entry of the endpoint's state is a boolean, as it is
    from construction on. *)
Definition flag_is_boolean (e : PostEndpoint.endpoint) : Prop :=
  ∃ b, StateMixin.state (PostEndpoint.box e) !! "isFinished"%string
       = Some (VBool b).

Fixpoint comma_free (s : string) : bool :=
  match s with
  | EmptyString => true
  | String c s' => negb (Ascii.eqb c ",") && comma_free s'
  end.

(** A term slug: not empty and without a comma. *)
Definition slug_ok (s : string) : Prop :=
  s ≠ EmptyString ∧ comma_free s = true.

(** The parameter read that stands for a list of active slugs: no entry
    for the empty list, the comma-joined list otherwise. *)
Definition param_of_slugs (xs : list string) : property :=
  match xs with
  | [] => Missing
  | _ => Own (VStr (join "," xs))
  end.

(** A serializer to run the definitions on: [key=value] pairs joined by
    [&], without escaping. *)
Definition plain_query_string (o : object) : string :=
  join "&"
    ((fun kv : string * value =>
        kv.1 +:+ "=" +:+ SearchView.js_to_string (SearchView.JPrim kv.2))
       <$> map_to_list o).

(** The endpoint of the usage example: [/wp-json/wp/v2/posts] with
    [per_page: 12]. *)
Definition posts_endpoint : PostEndpoint.endpoint :=
  PostEndpoint.postEndpointFactory plain_query_string "/wp-json/wp/v2/posts"
    {[ "per_page"%string := VNum 12 ]} false "GET" ∅.

(** A response whose [X-WP-TOTAL] header reports 30 posts. *)
Definition response_total_30 : RequestMixin.response :=
  {| RequestMixin.headers := {[ "X-WP-TOTAL"%string := "30"%string ]};
     RequestMixin.body := "[]" |}.

(** A sequence of [setQuery] calls, each with its query and its
    [runQuery] argument. *)
Definition setQueries (serializeObject : object -> string)
    (qs : list (object * bool)) (e : PostEndpoint.endpoint)
  : PostEndpoint.endpoint :=
  fold_left (fun e q => (PostEndpoint.setQuery serializeObject q.1 q.2 e).1)
    qs e.


(** Every value of the object converts to an integer or to NaN: none is a
    string that denotes a fraction or an infinity. *)
Definition integral_values (o : object) : Prop :=
  map_Forall (fun (_ : string) v => integral (Own v)) o.


(** A session in which two components fetch the first page of the posts:
    the transport answers once, both receive their copy and the second
    reads it. *)
Definition two_fetches : list RequestMixin.action :=
  [ RequestMixin.CallFetch "/wp-json/wp/v2/posts?per_page=12&page=1"
      (Some "GET"%string);
    RequestMixin.CallFetch "/wp-json/wp/v2/posts?per_page=12&page=1"
      (Some "GET"%string);
    RequestMixin.Settle 0 response_total_30;
    RequestMixin.Deliver 0;
    RequestMixin.Deliver 0;
    RequestMixin.ReadJson 2 ].

Definition after_two_fetches : RequestMixin.session :=
  default RequestMixin.new_session
    (RequestMixin.run two_fetches RequestMixin.new_session).

(** Two ['tax-set'] events in a row for the same checkbox. *)
Definition toggle_twice (serializeObject : object -> string)
    (tax slug listingName : string) (v : SearchView.view)
  : outcome SearchView.view :=
  match SearchView.on_tax_set serializeObject tax slug listingName true v with
  | Ok v1 =>
      SearchView.on_tax_set serializeObject tax slug listingName true v1
  | TypeError => TypeError
  end.

(** The listing of the usage example, filtered on two categories. *)
Definition posts_config : SearchView.options :=
  {[ "rootEl"%string := SearchView.JElement 1;
     "template"%string :=
       SearchView.JFunction 1 "post => `<div>${ post.title.rendered }</div>`";
     "pathname"%string := SearchView.JPrim (VStr "/wp-json/wp/v2/posts");
     "scroll"%string := SearchView.JPrim (VBool true);
     "config"%string :=
       SearchView.JObject {[ "per_page"%string := VNum 12;
                             "categories"%string := VStr "news,events" ]} ]}.

Definition posts_listing : SearchView.listing :=
  {| SearchView.l_options := posts_config ∪ SearchView.listingDefaults;
     SearchView.l_endpoint :=
       PostEndpoint.postEndpointFactory plain_query_string
         "/wp-json/wp/v2/posts"
         {[ "per_page"%string := VNum 12;
            "categories"%string := VStr "news,events" ]} false "GET" ∅ |}.

Definition posts_view : SearchView.view :=
  {| SearchView.v_box :=
       StateMixin.stateMixin {[ "loading"%string := VBool false;
                                "visible"%string := VBool false;
                                "foundPosts"%string := VNum 0 ]};
     SearchView.listings := {[ "posts"%string := posts_listing ]};
     SearchView.v_console := [] |}.

(** The same configuration without its [pathname]. *)
Definition config_without_pathname : SearchView.options :=
  {[ "rootEl"%string := SearchView.JElement 1;
     "template"%string :=
       SearchView.JFunction 1 "post => `<div>${ post.title.rendered }</div>`" ]}.

(** ** Further handlers of the search view *)

Module Handlers.
Import StateMixin RequestMixin PostEndpoint SearchView.

(** [Number.isInteger(x)] of a property read. *)
Definition isInteger (o : option value) : bool :=
  match o with
  | Some (VNum _) => true
  | _ => false
  end.

(** What one listing adds in [getTotalFoundPosts]: its [foundPosts] when
    that is an integer, nothing otherwise. *)
Definition found_in (l : listing) : Z :=
  let foundPosts := state (box (l_endpoint l)) !! "foundPosts"%string in
  if isInteger foundPosts
  then match foundPosts with Some (VNum z) => z | _ => 0 end
  else 0.

(** [getTotalFoundPosts()] *)
Definition getTotalFoundPosts (v : view) : Z :=
  map_fold (fun (_ : string) l found => found + found_in l) 0 (listings v).

(** [setResultsVariables()] *)
Definition setResultsVariables (v : view) : view :=
  view_setState {[ "loading"%string := VBool false;
                   "foundPosts"%string := VNum (getTotalFoundPosts v) ]} v.

(** The first ['input'] listener of [bindInput], for the current value of
    the input. *)
Definition on_input (value : string) (v : view) : view :=
  let typed := negb (String.length value =? 0)%nat in
  view_setState {[ "loading"%string := VBool typed;
                   "visible"%string := VBool typed ]} v.

(** [checkBottom(cb)]; [scrolledToBottom] is what [elScrolledToBottom] of
    [./utils], which is not among the sources, answers for the scroll
    wrapper. *)
Definition checkBottom (scrolledToBottom : bool) (cb : view -> outcome view)
    (v : view) : outcome view :=
  if negb (truthy_prop (state (v_box v) !! "visible"%string)) then Ok v
  else if scrolledToBottom then cb v
  else Ok v.

Section WithSerializer.

Variable serializeObject : object -> string.

(** One turn of the loop of [search()]: the query of the listing is its
    search parameter set to [input.value].  [input] is the text of the
    input element of the options, [None] when the options hold no input
    element, in which case reading [input.value] throws. *)
Definition search_listing (input : option string) (acc : outcome view)
    (entry : string * listing) : outcome view :=
  match acc with
  | Ok v =>
      match input with
      | Some value =>
          let query : object :=
            write (js_to_string (prop (l_options entry.2) "searchParam"))
              (VStr value) ∅ in
          setListingQuery serializeObject entry.1 entry.2 query v
      | None => TypeError
      end
  | TypeError => TypeError
  end.

(** The synchronous part of [search()]; when all promises have resolved,
    [setResultsVariables] runs.  [this.options.input] is read first, and
    its [value] in each turn of the loop over the listings. *)
Definition search (input : option string) (v : view) : outcome view :=
  fold_left (search_listing input) (map_to_list (listings v)) (Ok v).

(** One turn of the loop in the debounced [get] of [bindScroll], over the
    listings that ask for scroll loading. *)
Definition scroll_listing (acc : outcome view) (entry : string * listing)
  : outcome view :=
  match acc with
  | Ok v =>
      if isFinished (l_endpoint entry.2) then Ok v
      else
        let v := view_setState {[ "loading"%string := VBool true ]} v in
        let '(e, r) := get serializeObject (l_endpoint entry.2) in
        let v := with_listing entry.1
                   {| l_options := l_options entry.2; l_endpoint := e |} v in
        match r with
        | Undefined | Thrown => TypeError
        | _ => Ok v
        end
  | TypeError => TypeError
  end.

(** Modelled from the spec: [mapObject] of [./utils] is not among the
    sources; called with the listings alone it gives the array of the
    listings, which the handler filters on [scroll] ("calls [get()] on
    every scroll-enabled, not-yet-finished listing endpoint").  This is the
    function [bindScroll] hands to [debounce], which decides when it
    runs. *)
Definition scroll_get (v : view) : outcome view :=
  fold_left scroll_listing
    (List.filter
       (fun entry : string * listing =>
          js_truthy (prop (l_options entry.2) "scroll"))
       (map_to_list (listings v)))
    (Ok v).

(** The ['scroll'] handler of [bindScroll]: [checkBottom(get)]. *)
Definition onScroll (scrolledToBottom : bool) (v : view) : outcome view :=
  checkBottom scrolledToBottom scroll_get v.

(** The ['click'] listener of a load-more button bound to the listing
    [l] stored under [name]. *)
Definition on_loadMore_click (name : string) (l : listing) (v : view)
  : outcome view :=
  let v := view_setState {[ "loading"%string := VBool true ]} v in
  let '(e, r) := get serializeObject (l_endpoint l) in
  let v := with_listing name
             {| l_options := l_options l; l_endpoint := e |} v in
  match r with
  | Undefined | Thrown => TypeError
  | _ => Ok v
  end.

End WithSerializer.

End Handlers.

(** Two values of the same type of primitive. *)
Definition same_kind (v w : value) : Prop :=
  match v, w with
  | VBool _, VBool _ | VStr _, VStr _ => True
  | (VNum _ | VNaN), (VNum _ | VNaN) => True
  | _, _ => False
  end.

(** The state of a view holds its three entries with their types:
    [loading] and [visible] booleans, [foundPosts] an integer. *)
Definition view_state_typed (c : StateMixin.container) : Prop :=
  ∃ (loading visible : bool) (foundPosts : Z),
    StateMixin.state c !! "loading"%string = Some (VBool loading) ∧
    StateMixin.state c !! "visible"%string = Some (VBool visible) ∧
    StateMixin.state c !! "foundPosts"%string = Some (VNum foundPosts).

(** The response carries no usable [X-WP-TOTAL] header. *)
Definition without_total (res : RequestMixin.response) : Prop :=
  RequestMixin.headers res !! "X-WP-TOTAL"%string = None ∨
  RequestMixin.headers res !! "X-WP-TOTAL"%string = Some EmptyString.

(** A call that is [get()] or its callback on a response without total. *)
Definition headerless_call (c : PostEndpoint.call) : Prop :=
  match c with
  | PostEndpoint.Get => True
  | PostEndpoint.GetThen res => without_total res
  | _ => False
  end.

(** The request string of the endpoint for its next page. *)
Definition next_request (serializeObject : object -> string)
    (e : PostEndpoint.endpoint) : string :=
  PostEndpoint.pathname e +:+ "?" +:+
  serializeObject
    (StateMixin.assign (PostEndpoint.params e)
       {[ "page"%string := VNum (PostEndpoint.page e + 1) ]}).

(** A second listing of the sample view, on pages, without scroll
    loading. *)
Definition pages_listing : SearchView.listing :=
  {| SearchView.l_options :=
       {[ "rootEl"%string := SearchView.JElement 2;
          "template"%string := SearchView.JFunction 1 "page => `<li></li>`";
          "pathname"%string := SearchView.JPrim (VStr "/wp-json/wp/v2/pages") ]}
       ∪ SearchView.listingDefaults;
     SearchView.l_endpoint :=
       PostEndpoint.postEndpointFactory plain_query_string
         "/wp-json/wp/v2/pages" ∅ false "GET" ∅ |}.

Definition two_listings_view : SearchView.view :=
  {| SearchView.v_box := SearchView.v_box posts_view;
     SearchView.listings :=
       {[ "posts"%string := posts_listing; "pages"%string := pages_listing ]};
     SearchView.v_console := [] |}.

(** What [setQuery] leaves of a parameter read: nothing for a missing
    entry or an empty string, the value otherwise. *)
Definition kept (o : option value) : option value :=
  match o with
  | Some v => if is_empty_string v then None else Some v
  | None => None
  end.

(** Every network call of the endpoint is for its own path and method,
    with a body for ['post'] only. *)
Definition own_calls_only (e : PostEndpoint.endpoint) : Prop :=
  ∀ n, n ∈ RequestMixin.network (PostEndpoint.reqs e) →
    RequestMixin.nc_method n = PostEndpoint.method e ∧
    (∃ query, RequestMixin.nc_endpoint n
              = PostEndpoint.pathname e +:+ "?" +:+ query) ∧
    RequestMixin.nc_body n
    = if String.eqb (PostEndpoint.method e) "post"
      then Some RequestMixin.default_body else None.

(** Number of [get()] callbacks in a sequence of calls. *)
Definition responses_in (cs : list PostEndpoint.call) : nat :=
  length (List.filter
            (fun c => match c with PostEndpoint.GetThen _ => true | _ => false end)
            cs).

(** A response without the [X-WP-TOTAL] header. *)
Definition response_without_total : RequestMixin.response :=
  {| RequestMixin.headers := ∅; RequestMixin.body := "[]" |}.

(** What [search()] makes of a listing, for the text of the input. *)
Definition searched (serializeObject : object -> string) (value : string)
    (l : SearchView.listing) : SearchView.listing :=
  {| SearchView.l_options := SearchView.l_options l;
     SearchView.l_endpoint :=
       (PostEndpoint.setQuery serializeObject
          (write
             (SearchView.js_to_string
                (SearchView.prop (SearchView.l_options l) "searchParam"))
             (VStr value) ∅)
          true (SearchView.l_endpoint l)).1 |}.

(** What scroll loading makes of a listing: the next page is asked for
    when the listing has [scroll] set and is not finished. *)
Definition scrolled (serializeObject : object -> string)
    (l : SearchView.listing) : SearchView.listing :=
  if SearchView.js_truthy (SearchView.prop (SearchView.l_options l) "scroll")
     && negb (PostEndpoint.isFinished (SearchView.l_endpoint l))
  then {| SearchView.l_options := SearchView.l_options l;
          SearchView.l_endpoint :=
            (PostEndpoint.get serializeObject (SearchView.l_endpoint l)).1 |}
  else l.

(** [undefined] or [null]: the values whose properties cannot be read. *)
Definition nullish (x : SearchView.jsv) : bool :=
  match x with
  | SearchView.JUndefined | SearchView.JNull => true
  | _ => false
  end.

(** [x.length] can be read and is truthy. *)
Definition has_truthy_length (x : SearchView.jsv) : bool :=
  match SearchView.js_length x with
  | Ok len => SearchView.js_truthy len
  | TypeError => false
  end.

(** A listing configuration that passes every check of [createListing],
    once merged with the defaults. *)
Definition valid_config (c : SearchView.options) : Prop :=
  let opts := c ∪ SearchView.listingDefaults in
  SearchView.js_truthy (SearchView.prop opts "rootEl") = true ∧
  SearchView.js_truthy (SearchView.prop opts "template") = true ∧
  SearchView.not_a_function (SearchView.prop opts "template") = false ∧
  has_truthy_length (SearchView.prop opts "pathname") = true ∧
  has_truthy_length (SearchView.prop opts "searchParam") = true.

(** The listing [createListing] makes of a valid configuration. *)
Definition created (serializeObject : object -> string) (url : object)
    (c : SearchView.options) : SearchView.listing :=
  let opts := c ∪ SearchView.listingDefaults in
  {| SearchView.l_options := opts;
     SearchView.l_endpoint :=
       PostEndpoint.postEndpointFactory serializeObject
         (SearchView.js_to_string (SearchView.prop opts "pathname"))
         (SearchView.config_object (SearchView.prop opts "config"))
         (SearchView.js_truthy (SearchView.prop opts "parseURL"))
         "GET" url |}.

(** The configuration of the pages listing. *)
Definition pages_config : SearchView.options :=
  {[ "rootEl"%string := SearchView.JElement 2;
     "template"%string := SearchView.JFunction 1 "page => `<li></li>`";
     "pathname"%string := SearchView.JPrim (VStr "/wp-json/wp/v2/pages") ]}.

(** The state of an endpoint holds its two entries with their types:
    [isFinished] a boolean, [foundPosts] a number or NaN. *)
Definition endpoint_state_typed (e : PostEndpoint.endpoint) : Prop :=
  ∃ (finished : bool) (found : number),
    StateMixin.state (PostEndpoint.box e) !! "isFinished"%string
    = Some (VBool finished) ∧
    StateMixin.state (PostEndpoint.box e) !! "foundPosts"%string
    = Some (value_of_number found).

(** A response whose total cannot be read as a number. *)
Definition response_total_unknown : RequestMixin.response :=
  {| RequestMixin.headers := {[ "X-WP-TOTAL"%string := "unknown"%string ]};
     RequestMixin.body := "[]" |}.

(** The posts listing once its first page has been asked for and answered
    with a total of 30. *)
Definition answered_listing : SearchView.listing :=
  {| SearchView.l_options := SearchView.l_options posts_listing;
     SearchView.l_endpoint :=
       (PostEndpoint.get_then response_total_30
          (PostEndpoint.get plain_query_string
             (SearchView.l_endpoint posts_listing)).1).1 |}.

(** The sample view while a search is under way: text has been typed, and
    the posts have been answered. *)
Definition searching_view : SearchView.view :=
  Handlers.on_input "dog"
    (SearchView.with_listing "posts" answered_listing posts_view).

(** An endpoint whose [per_page] comes as the text ["1e1"], on its first
    page. *)
Definition ten_per_page_endpoint : PostEndpoint.endpoint :=
  (PostEndpoint.get plain_query_string
     (PostEndpoint.postEndpointFactory plain_query_string
        "/wp-json/wp/v2/posts" {[ "per_page"%string := VStr "1e1" ]}
        false "GET" ∅)).1.

(** A response whose [X-WP-TOTAL] header reports 10 posts. *)
Definition response_total_10 : RequestMixin.response :=
  {| RequestMixin.headers := {[ "X-WP-TOTAL"%string := "10"%string ]};
     RequestMixin.body := "[]" |}.

(** * Properties *)

Import StateMixin RequestMixin PostEndpoint SearchView.

(** ** JavaScript helpers *)

Example parseInt_30 : parseInt "30" = Num 30.
Proof. reflexivity. Qed.

Example parseInt_prefix : parseInt "  -12px" = Num (-12).
Proof. reflexivity. Qed.

Example parseInt_hex : parseInt "0x1f" = Num 31.
Proof. reflexivity. Qed.

Example parseInt_no_digit : parseInt "abc" = NaN.
Proof. reflexivity. Qed.

Example StringToNumber_spaces : StringToNumber " 12 " = Num 12.
Proof. reflexivity. Qed.

Example StringToNumber_suffix : StringToNumber "12px" = NaN.
Proof. reflexivity. Qed.

Example StringToNumber_exponent : StringToNumber "1e1" = Num 10.
Proof. reflexivity. Qed.

Example StringToNumber_fraction_zero : StringToNumber "12.0" = Num 12.
Proof. reflexivity. Qed.

Example StringToNumber_negative_exponent : StringToNumber "-120e-1" = Num (-12).
Proof. reflexivity. Qed.

Example StringToNumber_hex : StringToNumber "0x1F" = Num 31.
Proof. reflexivity. Qed.

Example string_literal_fraction : string_literal "12.5" = Fractional.
Proof. reflexivity. Qed.

Example string_literal_infinity : string_literal "-Infinity" = Fractional.
Proof. reflexivity. Qed.

Example string_literal_dot : string_literal "." = NotNumeric.
Proof. reflexivity. Qed.

Example string_literal_bare_exponent : string_literal "1e" = NotNumeric.
Proof. reflexivity. Qed.

Example loose_equals_exponent : loose_equals (VStr "1e1") (VNum 10) = true.
Proof. reflexivity. Qed.

(** *** Names inherited from [Object.prototype] *)

Lemma list_ascii_of_append (a b : string) :
  list_ascii_of_string (a +:+ b) =
  list_ascii_of_string a ++ list_ascii_of_string b.
Proof.
  induction a as [|c a IH]; [done|].
  change (String c a +:+ b) with (String c (a +:+ b)).
  cbn [list_ascii_of_string]. by rewrite IH.
Qed.

Lemma inherited_no_question_mark s :
  inherited s = true → "?"%char ∉ list_ascii_of_string s.
Proof.
  unfold inherited. cbn [existsb]. intros H.
  repeat (apply orb_prop in H as [H|H];
          [apply String.eqb_eq in H; subst s; intros Hin;
           repeat (apply elem_of_cons in Hin as [Hin|Hin]; [discriminate|]);
           by apply elem_of_nil in Hin|]).
  discriminate.
Qed.

(** A request string of an endpoint, which holds a [?], is no inherited
    name. *)
Lemma request_not_inherited a b : inherited (a +:+ "?" +:+ b) = false.
Proof.
  destruct (inherited (a +:+ "?" +:+ b)) eqn:H; [|done].
  apply inherited_no_question_mark in H. exfalso. apply H.
  rewrite list_ascii_of_append. apply elem_of_app. right. by left.
Qed.

Lemma inherited_not_proto key :
  inherited key = false → String.eqb key "__proto__" = false.
Proof.
  unfold inherited. cbn [existsb]. intros H.
  destruct (String.eqb key "__proto__"); [|done].
  by rewrite orb_true_r in H.
Qed.

Lemma read_not_inherited (o : object) key :
  inherited key = false →
  read o key = match o !! key with Some v => Own v | None => Missing end.
Proof. intros H. unfold read. by rewrite H. Qed.

Lemma write_not_proto key v (o : object) :
  String.eqb key "__proto__" = false → write key v o = <[key := v]> o.
Proof. intros H. unfold write. by rewrite H. Qed.

Example split_commas : split "," "a,,b," = ["a"; ""; "b"; ""]%string.
Proof. reflexivity. Qed.

Example join_commas : join "," ["a"; "b"; "c"]%string = "a,b,c"%string.
Proof. reflexivity. Qed.

Lemma loose_equals_refl v : v ≠ VNaN → loose_equals v v = true.
Proof.
  destruct v as [b|z| |s]; intros H; try done; simpl.
  - destruct b; apply Z.eqb_refl.
  - apply Z.eqb_refl.
  - apply String.eqb_refl.
Qed.

Lemma loose_equals_NaN_l v : loose_equals VNaN v = false.
Proof. by destruct v. Qed.

Lemma loose_equals_bool b1 b2 :
  loose_equals (VBool b1) (VBool b2) = true → b1 = b2.
Proof. by destruct b1, b2. Qed.

(** ** State container *)

Lemma equal_true_iff (a b : object) :
  equal a b = true ↔
  size a = size b ∧
  ∀ k v, a !! k = Some v → ∃ w, b !! k = Some w ∧ loose_equals v w = true.
Proof.
  unfold equal. rewrite andb_true_iff, bool_decide_eq_true, forallb_forall.
  split; intros [Hs H]; split; try done.
  - intros k v Hk. apply elem_of_map_to_list, list_elem_of_In in Hk.
    specialize (H _ Hk). simpl in H.
    destruct (b !! k) as [w|]; [eauto | done].
  - intros [k v] Hin. apply list_elem_of_In, elem_of_map_to_list in Hin.
    destruct (H _ _ Hin) as (w & Hw & Heq). simpl. by rewrite Hw.
Qed.

Lemma equal_refl (a : object) : no_NaN a → equal a a = true.
Proof.
  intros Ha. apply equal_true_iff. split; [done|].
  intros k v Hk. exists v. split; [done|].
  apply loose_equals_refl. by apply (Ha k).
Qed.

Lemma equal_self_no_NaN (a : object) : equal a a = true → no_NaN a.
Proof.
  intros [_ H]%equal_true_iff k v Hk ->.
  destruct (H _ _ Hk) as (w & Hw & Heq). rewrite Hk in Hw.
  by injection Hw as <-.
Qed.

Lemma assign_idemp (a d : object) : assign (assign a d) d = assign a d.
Proof. unfold assign. by rewrite (assoc_L (∪)), (idemp_L (∪)). Qed.

Lemma setState_changed data c :
  equal (assign (state c) data) (state c) = false →
  setState data c =
  {| state := assign (state c) data;
     published := published c ++
       [Event "state-set" [assign (state c) data; state c]] |}.
Proof. intros H. unfold setState. by rewrite H. Qed.

Lemma setState_unchanged data c :
  equal (assign (state c) data) (state c) = true → setState data c = c.
Proof. intros H. unfold setState. by rewrite H. Qed.

(** A boolean entry written by [setState] is read back, provided the entry
    was a boolean before. *)
Lemma setState_lookup_bool data c k b0 b :
  state c !! k = Some (VBool b0) →
  data !! k = Some (VBool b) →
  state (setState data c) !! k = Some (VBool b).
Proof.
  intros Hc Hd.
  assert (Hm : assign (state c) data !! k = Some (VBool b)).
  { unfold assign. by apply lookup_union_Some_l. }
  destruct (equal (assign (state c) data) (state c)) eqn:E.
  - rewrite setState_unchanged by done.
    apply equal_true_iff in E as [_ E].
    destruct (E _ _ Hm) as (w & Hw & Heq). rewrite Hc in Hw.
    injection Hw as <-. apply loose_equals_bool in Heq. by subst.
  - by rewrite setState_changed.
Qed.

(** [setState] adds only ['state-set'] events. *)
Lemma setState_count name data c :
  name ≠ "state-set"%string →
  count_published name (setState data c) = count_published name c.
Proof.
  intros Hne. unfold setState.
  destruct (negb _); [|done].
  unfold count_published, publish. cbn [published].
  rewrite List.filter_app, length_app. cbn [List.filter ev_name].
  destruct (String.eqb_spec "state-set" name); [congruence|].
  cbn [length]. lia.
Qed.

(** C5 (as stated, refuted): on a container whose state already holds
    [loading: true], two calls [setState({loading: true})] in a row publish
    no ['state-set'] event at all, not exactly one. *)
Lemma setState_twice_already_set_publishes_nothing :
  let partial : object := {[ "loading"%string := VBool true ]} in
  let c := stateMixin {[ "loading"%string := VBool true ]} in
  count_published "state-set" (setState partial (setState partial c)) = 0%nat.
Proof. vm_compute. reflexivity. Qed.

(** The equality check is by [==]: the text ["1e1"] and the number 10 are
    equal, and writing the one over the other changes and publishes
    nothing. *)
Example setState_exponent_text_is_equal :
  let c := stateMixin {[ "q"%string := VStr "1e1" ]} in
  setState {[ "q"%string := VNum 10 ]} c = c.
Proof. vm_compute. reflexivity. Qed.

(** C5 (amended): on values whose comparison by [==] is a comparison of
    booleans, integers, NaN and strings (no string denotes a fraction or an
    infinity), [setState(partial)] computes [merged = {...current,
    ...partial}]; when [merged] is deep-unequal to the current state it
    replaces the state by [merged] and publishes one ['state-set'] event
    with (merged, previous); otherwise it changes and publishes nothing.  A
    second call with the same partial publishes nothing when [merged] holds
    no NaN, so that two calls in a row publish exactly once when the first
    one changes the state and not at all otherwise. *)
Theorem setState_publishes_iff_changed (c : container) (data : object) :
  integral_values (state c) →
  integral_values data →
  let merged := assign (state c) data in
  let c1 := setState data c in
  (equal merged (state c) = false →
     state c1 = merged ∧
     published c1 = published c ++ [Event "state-set" [merged; state c]]) ∧
  (equal merged (state c) = true → c1 = c) ∧
  (no_NaN merged →
     setState data c1 = c1 ∧
     count_published "state-set" (setState data c1) =
       (count_published "state-set" c +
        if equal merged (state c) then 0 else 1)%nat).
Proof.
  intros _ _ merged c1. subst merged c1. split; [|split].
  - intros E. by rewrite setState_changed.
  - apply setState_unchanged.
  - intros Hn.
    assert (Hagain : setState data (setState data c) = setState data c).
    { destruct (equal (assign (state c) data) (state c)) eqn:E.
      - rewrite (setState_unchanged _ c E). apply (setState_unchanged _ c E).
      - rewrite (setState_changed _ c E). apply setState_unchanged.
        cbn [state]. rewrite assign_idemp. by apply equal_refl. }
    split; [done|]. rewrite Hagain.
    destruct (equal (assign (state c) data) (state c)) eqn:E.
    + rewrite setState_unchanged by done. lia.
    + rewrite (setState_changed _ c E).
      unfold count_published. cbn [published].
      rewrite List.filter_app, length_app. reflexivity.
Qed.

(** C5, on a container that is not loading and the partial
    [{loading: true}]: the first call publishes, the second does not. *)
Lemma setState_loading_twice_publishes_once :
  let c := stateMixin {[ "loading"%string := VBool false ]} in
  let partial : object := {[ "loading"%string := VBool true ]} in
  state (setState partial c) = partial ∧
  setState partial (setState partial c) = setState partial c ∧
  count_published "state-set" (setState partial (setState partial c)) = 1%nat.
Proof.
  intros c partial.
  assert (Hc : integral_values (state c)).
  { unfold c. cbn [state stateMixin].
    intros k v [<- <-]%lookup_singleton_Some. exact I. }
  assert (Hp : integral_values partial).
  { intros k v [<- <-]%lookup_singleton_Some. exact I. }
  destruct (setState_publishes_iff_changed c partial Hc Hp)
    as (Hchanged & _ & Hagain).
  destruct (Hchanged ltac:(vm_compute; reflexivity)) as [Hs _].
  destruct Hagain as [Hsame Hcount].
  { intros k v Hk ->. unfold assign, c, partial in Hk.
    cbn [state stateMixin] in Hk.
    apply lookup_union_Some_raw in Hk as [Hk|[_ Hk]];
      apply lookup_singleton_Some in Hk as [_ Hk]; discriminate. }
  split; [rewrite Hs; vm_compute; reflexivity|].
  split; [exact Hsame|]. rewrite Hcount. vm_compute. reflexivity.
Defined.

(** ** Query endpoint *)

Section EndpointFacts.

Variable serializeObject : object -> string.

Lemma get_finished e :
  isFinished e = true →
  get serializeObject e = (with_page (page e + 1) e, Undefined).
Proof.
  intros H. unfold PostEndpoint.get.
  change (isFinished (with_page (page e + 1) e)) with (isFinished e).
  by rewrite H.
Qed.

(** A request that holds a [?] is answered by the cache. *)
Lemma fetch_request_Ok a b method c :
  ∃ c' p, fetch (a +:+ "?" +:+ b) method c = Ok (c', p).
Proof.
  unfold fetch. destruct (requests c !! _) as [p|]; [by eexists _, _|].
  rewrite request_not_inherited. by eexists _, _.
Qed.

Lemma get_not_finished e :
  isFinished e = false →
  ∃ c p,
    fetch (pathname e +:+ "?" +:+
           serializeObject
             (assign (params e) {[ "page"%string := VNum (page e + 1) ]}))
          (Some (method e)) (reqs e) = Ok (c, p) ∧
    get serializeObject e = (with_reqs c (with_page (page e + 1) e), BodyOf p).
Proof.
  intros H. unfold PostEndpoint.get.
  change (isFinished (with_page (page e + 1) e)) with (isFinished e).
  rewrite H. cbn [pathname params method reqs with_page].
  destruct (fetch_request_Ok (pathname e)
              (serializeObject
                 (assign (params e) {[ "page"%string := VNum (page e + 1) ]}))
              (Some (method e)) (reqs e)) as (c & p & Hf).
  rewrite Hf. by exists c, p.
Qed.

Lemma get_frame e :
  page (get serializeObject e).1 = page e + 1 ∧
  params (get serializeObject e).1 = params e ∧
  config (get serializeObject e).1 = config e ∧
  box (get serializeObject e).1 = box e ∧
  console (get serializeObject e).1 = console e.
Proof.
  destruct (isFinished e) eqn:H.
  - by rewrite get_finished.
  - destruct (get_not_finished e H) as (c & p & _ & ->). done.
Qed.

Lemma get_then_frame res e :
  page (get_then res e).1 = page e ∧ params (get_then res e).1 = params e ∧
  config (get_then res e).1 = config e ∧ reqs (get_then res e).1 = reqs e.
Proof.
  unfold get_then.
  destruct (headers res !! "X-WP-TOTAL"%string) as [[|a total]|]; [done| |done].
  destruct (ge _ _); done.
Qed.

Lemma setQuery_no_run query e :
  setQuery serializeObject query false e =
  (with_params (delete_empty (assign (params e) query))
     (with_box (setState {[ "isFinished"%string := VBool false ]} (box e))
        (with_page 0 e)), Resolved).
Proof. reflexivity. Qed.

Lemma setQuery_run query e :
  setQuery serializeObject query true e =
  get serializeObject (setQuery serializeObject query false e).1.
Proof. reflexivity. Qed.

Lemma setQuery_params query runQuery e :
  params (setQuery serializeObject query runQuery e).1 =
  delete_empty (assign (params e) query).
Proof.
  destruct runQuery; [|done].
  rewrite setQuery_run. by rewrite (proj1 (proj2 (get_frame _))).
Qed.

Lemma setQuery_config query runQuery e :
  config (setQuery serializeObject query runQuery e).1 = config e.
Proof.
  destruct runQuery; [|done].
  rewrite setQuery_run. by rewrite (proj1 (proj2 (proj2 (get_frame _)))).
Qed.

Lemma setQuery_page query runQuery e :
  page (setQuery serializeObject query runQuery e).1 =
  if runQuery then 1 else 0.
Proof.
  destruct runQuery; [|done].
  rewrite setQuery_run. by rewrite (proj1 (get_frame _)).
Qed.

Lemma run_call_config c e : config (run_call serializeObject c e) = config e.
Proof.
  destruct c; simpl.
  - apply get_frame.
  - apply get_then_frame.
  - apply setQuery_config.
  - done.
Qed.

Lemma run_calls_config cs e :
  config (run_calls serializeObject cs e) = config e.
Proof.
  revert e. induction cs as [|c cs IH]; intros e; [done|].
  unfold PostEndpoint.run_calls in *. simpl. rewrite IH.
  apply run_call_config.
Qed.

Lemma postEndpointFactory_config pathname cfg parseURL method url :
  config (postEndpointFactory serializeObject pathname cfg parseURL method url)
  = cfg.
Proof.
  unfold postEndpointFactory. destruct parseURL; [|done].
  by rewrite setQuery_config.
Qed.

Lemma delete_empty_no_empty_string ps : no_empty_string (delete_empty ps).
Proof.
  intros k v Hk ->. unfold delete_empty in Hk.
  apply map_lookup_filter_Some in Hk as [_ Hk]. done.
Qed.

Lemma setQueries_no_empty_string qs e :
  no_empty_string (params e) →
  no_empty_string (params (setQueries serializeObject qs e)).
Proof.
  revert e. induction qs as [|q qs IH]; intros e He; [done|].
  unfold setQueries in *. simpl. apply IH.
  rewrite setQuery_params. apply delete_empty_no_empty_string.
Qed.

End EndpointFacts.

(** The endpoint of the usage example after its three pages have been
    fetched and answered: it is finished and on page 3. *)
Example posts_endpoint_after_three_pages :
  let e := run_calls plain_query_string
             [Get; GetThen response_total_30; Get; GetThen response_total_30;
              Get; GetThen response_total_30] posts_endpoint in
  isFinished e = true ∧ getPage e = 3 ∧ length (network (reqs e)) = 3%nat.
Proof. vm_compute. done. Qed.

(** C1 (what the code does): on a finished endpoint [get()] makes no
    network call, returns no value and leaves the state, the published
    events and the parameters as they are, but the page counter is
    incremented all the same, since [++page] is evaluated before the
    finished check. *)
Theorem get_finished_no_request_but_page_advances
    (serializeObject : object → string) (e : endpoint) :
  isFinished e = true →
  (get serializeObject e).2 = Undefined ∧
  reqs (get serializeObject e).1 = reqs e ∧
  box (get serializeObject e).1 = box e ∧
  getParams (get serializeObject e).1 = getParams e ∧
  getPage (get serializeObject e).1 = getPage e + 1.
Proof. intros H. by rewrite get_finished. Qed.

(** C1, on the endpoint of the usage example once its three pages are in:
    a fourth [get()] moves the page counter from 3 to 4. *)
Lemma get_finished_page_advances_witness :
  let e := run_calls plain_query_string
             [Get; GetThen response_total_30; Get; GetThen response_total_30;
              Get; GetThen response_total_30] posts_endpoint in
  isFinished e = true ∧
  (get plain_query_string e).2 = Undefined ∧
  reqs (get plain_query_string e).1 = reqs e ∧
  box (get plain_query_string e).1 = box e ∧
  getParams (get plain_query_string e).1 = getParams e ∧
  getPage (get plain_query_string e).1 = getPage e + 1.
Proof.
  intros e.
  assert (H : isFinished e = true) by (vm_compute; reflexivity).
  split; [exact H|].
  exact (get_finished_no_request_but_page_advances plain_query_string e H).
Defined.

(** C2 (as stated, refuted): right after [setQuery({})], whose [runQuery]
    defaults to true, [getPage()] is 1 and not 0. *)
Lemma getPage_after_setQuery_is_one :
  getPage (setQuery plain_query_string ∅ true posts_endpoint).1 = 1.
Proof. vm_compute. reflexivity. Qed.

(** C2 (amended): [getPage()] is 0 right after [setQuery(q, false)] and 1
    right after [setQuery(q)] with [runQuery] true, which runs [get()] at
    once; each [get()] on an endpoint that is not finished returns a
    promise and increases [getPage()] by exactly 1. *)
Theorem getPage_after_setQuery_and_get
    (serializeObject : object → string) (e : endpoint) (query : object) :
  getPage (setQuery serializeObject query false e).1 = 0 ∧
  getPage (setQuery serializeObject query true e).1 = 1 ∧
  (isFinished e = false →
     getPage (get serializeObject e).1 = getPage e + 1 ∧
     ∃ p, (get serializeObject e).2 = BodyOf p).
Proof.
  split; [|split].
  - apply (setQuery_page serializeObject query false).
  - apply (setQuery_page serializeObject query true).
  - intros H. split; [apply get_frame|].
    destruct (get_not_finished serializeObject e H) as (c & p & _ & ->).
    by exists p.
Qed.

(** C3: after any non-empty sequence of [setQuery] calls, whatever the
    queries hold and whatever the parameters were before, [getParams()] has
    no key whose value is the empty string; from a freshly built endpoint
    whose configuration has no empty string this holds after every
    sequence. *)
Theorem setQuery_never_keeps_empty_string
    (serializeObject : object → string) (e : endpoint)
    (q : object * bool) (qs : list (object * bool)) :
  no_empty_string (getParams (setQueries serializeObject (q :: qs) e)) ∧
  (∀ pathname cfg parseURL method url,
     no_empty_string cfg →
     no_empty_string
       (getParams
          (setQueries serializeObject qs
             (postEndpointFactory serializeObject pathname cfg parseURL
                method url)))).
Proof.
  split.
  - unfold getParams. change (setQueries serializeObject (q :: qs) e)
      with (setQueries serializeObject qs (setQuery serializeObject q.1 q.2 e).1).
    apply setQueries_no_empty_string. rewrite setQuery_params.
    apply delete_empty_no_empty_string.
  - intros pathname cfg parseURL method url Hcfg.
    apply setQueries_no_empty_string. unfold postEndpointFactory.
    destruct parseURL; [|done].
    rewrite setQuery_params. apply delete_empty_no_empty_string.
Qed.

(** C9: in every state reached from the factory by [get], its callback,
    [setQuery] and [clearQuery], [clearQuery()] makes the parameters equal
    to the configuration the endpoint was built with and leaves the page
    counter, the state (finished flag, found posts), the published events
    and the request cache as they are. *)
Theorem clearQuery_restores_config_only
    (serializeObject : object → string) (pathname : string) (cfg : object)
    (parseURL : bool) (method : string) (url : object) (calls : list call) :
  let e := run_calls serializeObject calls
             (postEndpointFactory serializeObject pathname cfg parseURL
                method url) in
  getParams (clearQuery e) = cfg ∧
  getPage (clearQuery e) = getPage e ∧
  box (clearQuery e) = box e ∧
  reqs (clearQuery e) = reqs e.
Proof.
  intros e. repeat split.
  unfold getParams, clearQuery. cbn [params with_params]. subst e.
  by rewrite run_calls_config, postEndpointFactory_config.
Qed.

(** ** Completion tracking *)

Lemma isFinished_of_flag e b :
  state (box e) !! "isFinished"%string = Some (VBool b) → isFinished e = b.
Proof. intros H. unfold isFinished. by rewrite H. Qed.

Lemma publish_count name args c :
  count_published name (publish name args c) = S (count_published name c).
Proof.
  unfold count_published, publish. cbn [published].
  rewrite List.filter_app, length_app. cbn [List.filter ev_name].
  rewrite String.eqb_refl. cbn [length]. lia.
Qed.

(** The callback of [get()] on a response that carries a total. *)
Lemma get_then_with_total res total e b0 :
  headers res !! "X-WP-TOTAL"%string = Some total →
  total ≠ EmptyString →
  state (box e) !! "isFinished"%string = Some (VBool b0) →
  let fin := ge (mul (Num (page e)) (ToNumber (getParam "per_page" e)))
                (parseInt total) in
  state (box (get_then res e).1) !! "isFinished"%string = Some (VBool fin) ∧
  count_published "listing-finished" (box (get_then res e).1) =
    (count_published "listing-finished" (box e) + if fin then 1 else 0)%nat ∧
  (get_then res e).2 = body res ∧
  console (get_then res e).1 = console e.
Proof.
  intros Hh Hne Hflag fin. unfold get_then. rewrite Hh.
  destruct total as [|a total]; [done|]. fold fin.
  set (data := ({[ "foundPosts"%string := value_of_number (parseInt (String a total));
                   "isFinished"%string := VBool fin ]} : object)).
  assert (Hd : data !! "isFinished"%string = Some (VBool fin)).
  { unfold data. rewrite lookup_insert_ne by done. apply lookup_singleton_eq. }
  pose proof (setState_lookup_bool data (box e) _ _ _ Hflag Hd) as Hs.
  pose proof (setState_count "listing-finished" data (box e)) as Hc.
  destruct fin; cbn [fst snd box with_box console].
  - split; [exact Hs|]. split; [|done].
    rewrite publish_count, Hc by done. lia.
  - split; [exact Hs|]. split; [|done]. rewrite Hc by done. lia.
Qed.

(** The [isFinished] entry stays a boolean through every call. *)
Lemma get_then_flag_is_boolean res e :
  flag_is_boolean e → flag_is_boolean (get_then res e).1.
Proof.
  intros [b Hb].
  destruct (headers res !! "X-WP-TOTAL"%string) as [total|] eqn:Hh.
  - destruct (decide (total = EmptyString)) as [->|Hne].
    + unfold get_then. rewrite Hh. by exists b.
    + destruct (get_then_with_total res total e b Hh Hne Hb) as (Hs & _).
      by eexists.
  - unfold get_then. rewrite Hh. by exists b.
Qed.

Lemma setQuery_flag_is_boolean serializeObject query runQuery e :
  flag_is_boolean e →
  flag_is_boolean (setQuery serializeObject query runQuery e).1.
Proof.
  intros [b Hb]. exists false. destruct runQuery.
  - rewrite setQuery_run, (proj1 (proj2 (proj2 (proj2 (get_frame _ _))))).
    rewrite setQuery_no_run. cbn [fst box with_params with_box].
    eapply setState_lookup_bool; [exact Hb | apply lookup_singleton_eq].
  - rewrite setQuery_no_run. cbn [fst box with_params with_box].
    eapply setState_lookup_bool; [exact Hb | apply lookup_singleton_eq].
Qed.

Lemma run_calls_flag_is_boolean serializeObject cs e :
  flag_is_boolean e → flag_is_boolean (run_calls serializeObject cs e).
Proof.
  revert e. induction cs as [|c cs IH]; intros e He; [done|].
  unfold PostEndpoint.run_calls in *. cbn [fold_left]. apply IH.
  destruct c as [|res|query runQuery|]; cbn [run_call].
  - destruct He as [b Hb]. exists b.
    by rewrite (proj1 (proj2 (proj2 (proj2 (get_frame _ _))))).
  - by apply get_then_flag_is_boolean.
  - by apply setQuery_flag_is_boolean.
  - done.
Qed.

Lemma postEndpointFactory_flag_is_boolean
    serializeObject pathname cfg parseURL method url :
  flag_is_boolean
    (postEndpointFactory serializeObject pathname cfg parseURL method url).
Proof.
  unfold postEndpointFactory. destruct parseURL.
  - apply setQuery_flag_is_boolean. by exists false.
  - by exists false.
Qed.

(** C6: with [per_page = 12] and responses reporting a total of 30, the
    endpoint is not finished after the answers to pages 1 and 2, and is
    finished after the answer to page 3, which is when ['listing-finished']
    is published, once; in general the callback of [get()] on a response
    that carries the total sets [isFinished] to
    [page * per_page >= total], for every [per_page] whose numeric value
    is an integer or NaN (a number, a boolean, a missing entry, or a string
    that does not denote a fraction or an infinity). *)
Theorem finished_on_third_page_of_30
    (serializeObject : object → string) (e : endpoint)
    (r1 r2 r3 : response) :
  getPage e = 0 →
  getParam "per_page" e = Own (VNum 12) →
  state (box e) !! "isFinished"%string = Some (VBool false) →
  headers r1 !! "X-WP-TOTAL"%string = Some "30"%string →
  headers r2 !! "X-WP-TOTAL"%string = Some "30"%string →
  headers r3 !! "X-WP-TOTAL"%string = Some "30"%string →
  let finished_events e := count_published "listing-finished" (box e) in
  let e1 := (get_then r1 (get serializeObject e).1).1 in
  let e2 := (get_then r2 (get serializeObject e1).1).1 in
  let e3 := (get_then r3 (get serializeObject e2).1).1 in
  (getPage e1 = 1 ∧ isFinished e1 = false ∧
   finished_events e1 = finished_events e) ∧
  (getPage e2 = 2 ∧ isFinished e2 = false ∧
   finished_events e2 = finished_events e) ∧
  (getPage e3 = 3 ∧ isFinished e3 = true ∧
   finished_events e3 = S (finished_events e)) ∧
  (∀ (e' : endpoint) (res : response) (total : string) (b : bool),
     headers res !! "X-WP-TOTAL"%string = Some total →
     total ≠ EmptyString →
     state (box e') !! "isFinished"%string = Some (VBool b) →
     integral (getParam "per_page" e') →
     isFinished (get_then res e').1 =
       ge (mul (Num (getPage e')) (ToNumber (getParam "per_page" e')))
          (parseInt total)).
Proof.
  intros Hp Hpp Hf H1 H2 H3 finished_events e1 e2 e3.
  assert (Hstep : ∀ (x : endpoint) (r : response) (n : Z),
    getPage x = n → getParam "per_page" x = Own (VNum 12) →
    state (box x) !! "isFinished"%string = Some (VBool false) →
    headers r !! "X-WP-TOTAL"%string = Some "30"%string →
    let y := (get_then r (get serializeObject x).1).1 in
    getPage y = n + 1 ∧ getParam "per_page" y = Own (VNum 12) ∧
    state (box y) !! "isFinished"%string = Some (VBool (30 <=? (n + 1) * 12)) ∧
    finished_events y =
      (finished_events x + if (30 <=? (n + 1) * 12)%Z then 1 else 0)%nat).
  { intros x r n Hn Hx Hfx Hr y. subst y.
    destruct (get_frame serializeObject x) as (Gp & Gps & _ & Gb & _).
    destruct (get_then_frame r (get serializeObject x).1) as (Tp & Tps & _).
    assert (Hfx' : state (box (get serializeObject x).1) !! "isFinished"%string
                   = Some (VBool false)) by (by rewrite Gb).
    destruct (get_then_with_total r "30" (get serializeObject x).1 false Hr
                ltac:(done) Hfx') as (Ts & Tc & _).
    unfold getPage, getParam in *. rewrite Tp, Tps, Gp, Gps, Hn.
    rewrite Gp, Gps, Hx, Hn in Ts, Tc. rewrite Gb in Tc.
    change (parseInt "30") with (Num 30) in Ts, Tc.
    cbn [ToNumber mul ge] in Ts, Tc.
    split; [done|]. split; [done|]. split; [exact Ts | exact Tc]. }
  destruct (Hstep e r1 0 Hp Hpp Hf H1) as (P1 & Q1 & F1 & C1).
  destruct (Hstep e1 r2 1 P1 Q1 F1 H2) as (P2 & Q2 & F2 & C2).
  destruct (Hstep e2 r3 2 P2 Q2 F2 H3) as (P3 & Q3 & F3 & C3).
  fold e1 in C1. fold e2 in P2, C2. fold e3 in P3, F3, C3.
  change (30 <=? (0 + 1) * 12) with false in *.
  change (30 <=? (1 + 1) * 12) with false in *.
  change (30 <=? (2 + 1) * 12) with true in *.
  cbv iota in C1, C2, C3.
  repeat split.
  - exact P1.
  - by apply isFinished_of_flag.
  - lia.
  - exact P2.
  - by apply isFinished_of_flag.
  - lia.
  - exact P3.
  - by apply isFinished_of_flag.
  - lia.
  - intros e' res total b Hh Hne Hb _.
    apply isFinished_of_flag.
    by destruct (get_then_with_total res total e' b Hh Hne Hb) as (Ts & _).
Qed.

(** ** Request cache *)

Lemma fetch_cases request method c :
  (requests c !! request = None ∧ inherited request = false ∧
   fetch request method c =
     Ok ({| requests := <[request := length (network c)]> (requests c);
            network := network c ++
              [{| nc_endpoint := request;
                  nc_method := default "get"%string method;
                  nc_body := if String.eqb (default "get"%string method) "post"
                             then Some default_body else None |}] |},
         length (network c))) ∨
  (∃ p, requests c !! request = Some p ∧ fetch request method c = Ok (c, p)) ∨
  (requests c !! request = None ∧ inherited request = true ∧
   fetch request method c = TypeError).
Proof.
  unfold fetch. destruct (requests c !! request) as [p|]; [right; left; eauto|].
  destruct (inherited request); [right; right|left]; eauto.
Qed.






Lemma fetch_returns_cached request method c c' p :
  fetch request method c = Ok (c', p) → requests c' !! request = Some p.
Proof.
  intros Hf.
  destruct (fetch_cases request method c)
    as [(Hnone & _ & F)|[(p' & Hp' & F)|(_ & _ & F)]];
    rewrite F in Hf; [|by injection Hf as <- <-|done].
  injection Hf as <- <-. cbn [requests]. apply lookup_insert_eq.
Qed.









(** *** The key string of [apiFetch] *)




(** The cache is keyed by the request string alone: a second [fetch] of
    the same string with another method is answered from the promise of
    the first call, and no network call is made for it. *)
Example fetch_ignores_method :
  ∃ c1,
    fetch "/wp-json/wp/v2/posts?page=1" (Some "GET"%string) requestMixin
    = Ok (c1, 0%nat) ∧
    fetch "/wp-json/wp/v2/posts?page=1" (Some "POST"%string) c1
    = Ok (c1, 0%nat) ∧
    length (network c1) = 1%nat.
Proof. eexists. split; [vm_compute; reflexivity|]. by vm_compute. Qed.



(** On a fresh cache the same call throws, without any network call. *)
Example fetch_inherited_name_throws :
  fetch "constructor" (Some "GET"%string) requestMixin = TypeError ∧
  run [CallFetch "constructor" (Some "GET"%string)] new_session
  = Some new_session.
Proof. split; vm_compute; reflexivity. Qed.

(** ** Comma-joined slug lists *)

Lemma split_comma_free x : comma_free x = true → split "," x = [x].
Proof.
  induction x as [|c x IH]; [done|]. cbn [comma_free split].
  intros [Hc Hx]%andb_true_iff. apply negb_true_iff in Hc. rewrite Hc.
  by rewrite (IH Hx).
Qed.

Lemma split_append_comma x s :
  comma_free x = true → split "," (x +:+ "," +:+ s) = x :: split "," s.
Proof.
  induction x as [|c x IH]; [done|].
  change (String c x +:+ "," +:+ s) with (String c (x +:+ "," +:+ s)).
  cbn [comma_free split].
  intros [Hc Hx]%andb_true_iff. apply negb_true_iff in Hc. rewrite Hc.
  by rewrite (IH Hx).
Qed.

Lemma split_join xs :
  xs ≠ [] → Forall slug_ok xs → split "," (join "," xs) = xs.
Proof.
  induction xs as [|x xs IH]; [done|]. intros _ Hok.
  apply Forall_cons in Hok as [[_ Hx] Hok].
  destruct xs as [|y xs]; [by apply split_comma_free|].
  change (join "," (x :: y :: xs)) with (x +:+ "," +:+ join "," (y :: xs)).
  rewrite split_append_comma by done. by rewrite IH.
Qed.

Lemma filter_truthy_slugs xs : Forall slug_ok xs → filter_truthy xs = xs.
Proof.
  induction 1 as [|x xs [Hx _] _ IH]; [done|].
  unfold filter_truthy in *. cbn [List.filter]. rewrite IH.
  by destruct x.
Qed.

Lemma join_slugs_nonempty xs :
  xs ≠ [] → Forall slug_ok xs → join "," xs ≠ EmptyString.
Proof.
  destruct xs as [|x xs]; [done|]. intros _ Hok.
  apply Forall_cons in Hok as [[Hx _] _].
  destruct x as [|c x]; [done|]. by destruct xs.
Qed.

Lemma join_slugs_inj xs ys :
  Forall slug_ok xs → Forall slug_ok ys →
  join "," xs = join "," ys → xs = ys.
Proof.
  intros Hx Hy H.
  destruct (decide (xs = [])) as [->|Hxs], (decide (ys = [])) as [->|Hys].
  - done.
  - symmetry in H. by apply join_slugs_nonempty in H.
  - by apply join_slugs_nonempty in H.
  - by rewrite <- (split_join xs), <- (split_join ys), H.
Qed.

(** The active slugs read back from a parameter that holds a slug list. *)
Lemma split_param_slugs xs :
  Forall slug_ok xs →
  ∃ parts, split_param (param_of_slugs xs) = Ok parts ∧
           filter_truthy parts = xs.
Proof.
  intros Hok. destruct xs as [|x xs].
  - by exists [EmptyString].
  - exists (x :: xs). unfold param_of_slugs, split_param.
    rewrite split_join by done. split; [done|].
    by apply filter_truthy_slugs.
Qed.

Lemma remove_slug_ok slug xs :
  Forall slug_ok xs →
  Forall slug_ok (List.filter (fun s => negb (String.eqb s slug)) xs).
Proof.
  intros H. apply Forall_forall. intros x [Hin _]%list_elem_of_In%List.filter_In.
  rewrite Forall_forall in H. apply H. by apply list_elem_of_In.
Qed.

Lemma remove_slug_absent slug xs :
  slug ∉ xs → List.filter (fun s => negb (String.eqb s slug)) xs = xs.
Proof.
  induction xs as [|x xs IH]; [done|].
  intros [Hne Hnin]%not_elem_of_cons. cbn [List.filter].
  destruct (String.eqb_spec x slug); [congruence|]. cbn. by rewrite IH.
Qed.

Lemma remove_slug_not_in slug xs :
  slug ∉ List.filter (fun s => negb (String.eqb s slug)) xs.
Proof.
  intros [_ H]%list_elem_of_In%List.filter_In.
  by rewrite String.eqb_refl in H.
Qed.

Lemma remove_slug_shorter slug xs :
  slug ∈ xs →
  (length (List.filter (fun s => negb (String.eqb s slug)) xs) < length xs)%nat.
Proof.
  induction xs as [|x xs IH]; [by intros ?%elem_of_nil|].
  cbn [List.filter length]. intros Hin.
  destruct (String.eqb_spec x slug) as [->|Hne]; cbn [negb length].
  - pose proof (List.filter_length_le (fun s => negb (String.eqb s slug)) xs).
    lia.
  - apply elem_of_cons in Hin as [?|Hin]; [congruence|].
    specialize (IH Hin). lia.
Qed.

Lemma remove_slug_append slug xs :
  slug ∉ xs →
  List.filter (fun s => negb (String.eqb s slug)) (xs ++ [slug]) = xs.
Proof.
  intros H. rewrite List.filter_app, (remove_slug_absent _ _ H).
  cbn [List.filter]. rewrite String.eqb_refl. cbn. apply app_nil_r.
Qed.

(** ** Taxonomy toggles *)

Lemma delete_empty_assign_lookup (ps : object) tax j :
  delete_empty (assign ps {[ tax := VStr j ]}) !! tax =
  match j with EmptyString => None | _ => Some (VStr j) end.
Proof.
  unfold delete_empty, assign.
  assert (H : ({[ tax := VStr j ]} ∪ ps) !! tax = Some (VStr j)).
  { apply lookup_union_Some_l, lookup_singleton_eq. }
  destruct j as [|c j].
  - apply map_lookup_filter_None. right. intros v Hv. rewrite H in Hv.
    by injection Hv as <-.
  - apply map_lookup_filter_Some. by split.
Qed.

Lemma setQuery_run_returns serializeObject query e :
  flag_is_boolean e →
  ∃ p, (setQuery serializeObject query true e).2 = BodyOf p ∧
       state (box (setQuery serializeObject query true e).1)
         !! "isFinished"%string = Some (VBool false).
Proof.
  intros [b Hb]. rewrite setQuery_run.
  set (e1 := (setQuery serializeObject query false e).1).
  assert (Hflag : state (box e1) !! "isFinished"%string = Some (VBool false)).
  { unfold e1. rewrite setQuery_no_run. cbn [fst box with_params with_box].
    eapply setState_lookup_bool; [exact Hb | apply lookup_singleton_eq]. }
  destruct (get_not_finished serializeObject e1
              (isFinished_of_flag _ _ Hflag)) as (c & p & _ & ->).
  exists p. by split.
Qed.

(** One toggle of [slug] on a listing whose parameter [tax] holds the slug
    list [xs]: the parameter then holds the list without [slug] if it was
    in it, and with [slug] appended otherwise. *)
Lemma on_tax_set_toggle serializeObject v name l tax slug xs :
  inherited tax = false →
  listings v !! name = Some l →
  flag_is_boolean (l_endpoint l) →
  getParam tax (l_endpoint l) = param_of_slugs xs →
  Forall slug_ok xs → slug_ok slug →
  let next := if inArray slug xs
              then List.filter (fun s => negb (String.eqb s slug)) xs
              else xs ++ [slug] in
  ∃ v1 l1,
    on_tax_set serializeObject tax slug name true v = Ok v1 ∧
    listings v1 !! name = Some l1 ∧
    flag_is_boolean (l_endpoint l1) ∧
    getParam tax (l_endpoint l1) = param_of_slugs next ∧
    Forall slug_ok next.
Proof.
  intros Htax Hl Hflag Hparam Hok Hslug next.
  assert (Hw : ∀ j, write tax (VStr j) ∅ = ({[ tax := VStr j ]} : object)).
  { intros j. apply write_not_proto. by apply inherited_not_proto. }
  assert (Hnext : Forall slug_ok next).
  { unfold next. destruct (inArray slug xs).
    - by apply remove_slug_ok.
    - apply Forall_app. split; [done|]. by apply Forall_singleton. }
  assert (Hdiff : join "," xs ≠ join "," next).
  { intros Heq%join_slugs_inj; [|done..]. unfold next, inArray in Heq.
    case_bool_decide as Hin.
    - pose proof (remove_slug_shorter _ _ Hin) as Hlt. rewrite <- Heq in Hlt. lia.
    - apply (f_equal length) in Heq. rewrite length_app in Heq. cbn in Heq. lia. }
  unfold on_tax_set. rewrite Hl, Hparam.
  destruct (split_param_slugs xs Hok) as (parts & -> & ->). fold next.
  rewrite Hw.
  destruct (String.eqb_spec (join "," xs) (join "," next)) as [?|_]; [done|].
  unfold setListingQuery.
  destruct (setQuery_run_returns serializeObject
              {[ tax := VStr (join "," next) ]} (l_endpoint l) Hflag)
    as (p & Hret & Hfin).
  pose proof (setQuery_params serializeObject
                {[ tax := VStr (join "," next) ]} true (l_endpoint l)) as Hps.
  destruct (setQuery serializeObject _ true (l_endpoint l)) as [e r].
  cbn [fst snd] in Hret, Hfin, Hps. subst r.
  eexists _, _. split; [reflexivity|]. cbn [listings with_listing l_endpoint].
  split; [apply lookup_insert_eq|]. split; [by exists false|].
  split; [|done].
  unfold getParam. cbn [l_endpoint].
  rewrite (read_not_inherited _ _ Htax), Hps, delete_empty_assign_lookup.
  destruct next as [|y ys]; [done|].
  pose proof (join_slugs_nonempty (y :: ys) ltac:(done) Hnext).
  unfold param_of_slugs. by destruct (join "," (y :: ys)).
Qed.

Example searchViewFactory_posts :
  searchViewFactory plain_query_string ∅ [("posts"%string, posts_config)]
  = Ok posts_view.
Proof. vm_compute. reflexivity. Qed.

(** C7 (as stated, refuted): with the parameter ["news,events"], toggling
    the slug ["news"] twice in a row leaves ["events,news"], which is not
    the original value. *)
Lemma toggle_twice_present_slug_reorders :
  listing_param "posts" "categories" posts_view
  = Some (Own (VStr "news,events")) ∧
  match toggle_twice plain_query_string "categories" "news" "posts" posts_view
  with
  | Ok v2 => listing_param "posts" "categories" v2
  | TypeError => None
  end = Some (Own (VStr "events,news")).
Proof. split; vm_compute; reflexivity. Qed.

(** The value is not restored either when it is not a plain slug list
    (here an empty entry is dropped) ... *)
Example toggle_twice_normalises_value :
  let v := with_listing "posts"
             {| l_options := l_options posts_listing;
                l_endpoint :=
                  with_params {[ "categories"%string := VStr "news,,events" ]}
                    (l_endpoint posts_listing) |} posts_view in
  match toggle_twice plain_query_string "categories" "sports" "posts" v with
  | Ok v2 => listing_param "posts" "categories" v2
  | TypeError => None
  end = Some (Own (VStr "news,events")).
Proof. vm_compute. reflexivity. Qed.

(** ... or when the slug holds a comma ... *)
Example toggle_twice_slug_with_comma :
  match toggle_twice plain_query_string "tags" "a,b" "posts" posts_view with
  | Ok v2 => listing_param "posts" "tags" v2
  | TypeError => None
  end = Some (Own (VStr "a,b,a,b")).
Proof. vm_compute. reflexivity. Qed.

(** ... and a truthy number has no [split] method. *)
Example toggle_numeric_parameter_throws :
  on_tax_set plain_query_string "per_page" "news" "posts" true posts_view
  = TypeError.
Proof. vm_compute. reflexivity. Qed.

(** Under a name inherited from [Object.prototype] that is no parameter,
    [getParam] gives the inherited member, which has no [split] method
    either. *)
Example toggle_inherited_name_throws :
  listing_param "posts" "constructor" posts_view = Some Inherited ∧
  on_tax_set plain_query_string "constructor" "news" "posts" true posts_view
  = TypeError.
Proof. split; vm_compute; reflexivity. Qed.

(** C7 (amended): when the name of the taxonomy parameter is none of those
    inherited from [Object.prototype], the parameter is absent or the
    comma-joined list of non-empty, comma-free slugs, and the slug toggled
    is non-empty, comma-free and not in that list, toggling it twice in a
    row with [shouldToggle = true] leaves the parameter equal to its
    original value (add, then remove).  When the slug is in the list the
    two toggles remove it and append it again, so that the same slugs are
    active with the toggled one moved to the end. *)
Theorem toggle_twice_restores_absent_slug
    (serializeObject : object → string) (v : view) (name : string)
    (l : listing) (tax slug : string) (xs : list string) :
  inherited tax = false →
  listings v !! name = Some l →
  flag_is_boolean (l_endpoint l) →
  getParam tax (l_endpoint l) = param_of_slugs xs →
  Forall slug_ok xs →
  slug_ok slug →
  ∃ v2,
    toggle_twice serializeObject tax slug name v = Ok v2 ∧
    (slug ∉ xs → listing_param name tax v2 = listing_param name tax v) ∧
    (slug ∈ xs →
     listing_param name tax v2 =
     Some (param_of_slugs
             (List.filter (fun s => negb (String.eqb s slug)) xs ++ [slug]))).
Proof.
  intros Htax Hl Hflag Hparam Hok Hslug.
  destruct (on_tax_set_toggle serializeObject v name l tax slug xs
              Htax Hl Hflag Hparam Hok Hslug)
    as (v1 & l1 & Hv1 & Hl1 & Hflag1 & Hparam1 & Hok1).
  destruct (on_tax_set_toggle serializeObject v1 name l1 tax slug _
              Htax Hl1 Hflag1 Hparam1 Hok1 Hslug)
    as (v2 & l2 & Hv2 & Hl2 & _ & Hparam2 & _).
  exists v2. unfold toggle_twice. rewrite Hv1. split; [exact Hv2|].
  unfold listing_param. rewrite Hl, Hl2. cbn [fmap option_fmap option_map].
  rewrite Hparam, Hparam2. unfold inArray.
  split; intros Hin.
  - rewrite (bool_decide_eq_false_2 _ Hin).
    rewrite bool_decide_eq_true_2 by (apply elem_of_app; right; by left).
    by rewrite remove_slug_append.
  - rewrite (bool_decide_eq_true_2 _ Hin).
    by rewrite (bool_decide_eq_false_2 _ (remove_slug_not_in slug xs)).
Qed.

(** C7, on the listing filtered on ["news,events"] and the slug
    ["sports"]. *)
Lemma toggle_twice_sports_witness :
  ∃ v2,
    toggle_twice plain_query_string "categories" "sports" "posts" posts_view
      = Ok v2 ∧
    listing_param "posts" "categories" v2
      = listing_param "posts" "categories" posts_view.
Proof.
  assert (Hl : listings posts_view !! "posts"%string = Some posts_listing)
    by (vm_compute; reflexivity).
  assert (Hflag : flag_is_boolean (l_endpoint posts_listing))
    by (exists false; vm_compute; reflexivity).
  assert (Hparam : getParam "categories" (l_endpoint posts_listing)
                   = param_of_slugs ["news"; "events"]%string)
    by (vm_compute; reflexivity).
  assert (Hok : Forall slug_ok ["news"; "events"]%string)
    by (repeat constructor; discriminate).
  assert (Hslug : slug_ok "sports") by (split; [discriminate|reflexivity]).
  destruct (toggle_twice_restores_absent_slug plain_query_string posts_view
              "posts" posts_listing "categories" "sports"
              ["news"; "events"]%string eq_refl Hl Hflag Hparam Hok Hslug)
    as (v2 & Hv2 & Habsent & _).
  exists v2. split; [exact Hv2|]. apply Habsent.
  intros Hin. repeat (apply elem_of_cons in Hin as [Hin|Hin]; [discriminate|]).
  by apply elem_of_nil in Hin.
Defined.

(** ** Listing creation *)

(** The configurations [createListing] turns down with a warning: a falsy
    root element; a template that is falsy or not a function; an empty
    [pathname] string; an empty [searchParam] string.  The view keeps its
    listings and its state, and one warning is logged. *)
Lemma createListing_rejected_warns
    (serializeObject : object → string) (url : object) (name : string)
    (cfg : options) (v : view) :
  let opts := cfg ∪ listingDefaults in
  js_truthy (prop opts "rootEl") = false ∨
  (js_truthy (prop opts "rootEl") = true ∧
   (js_truthy (prop opts "template") = false ∨
    not_a_function (prop opts "template") = true)) ∨
  (js_truthy (prop opts "rootEl") = true ∧
   js_truthy (prop opts "template") = true ∧
   not_a_function (prop opts "template") = false ∧
   (prop opts "pathname" = JPrim (VStr EmptyString) ∨
    ((∃ s, prop opts "pathname" = JPrim (VStr s) ∧ s ≠ EmptyString) ∧
     prop opts "searchParam" = JPrim (VStr EmptyString)))) →
  ∃ v' msg,
    createListing serializeObject url name cfg v = Ok v' ∧
    listings v' = listings v ∧
    v_box v' = v_box v ∧
    v_console v' = v_console v ++ [name +:+ " listing error: " +:+ msg].
Proof.
  intros opts H. unfold createListing. fold opts.
  destruct H as [H|[[H1 H]|(H1 & H2 & H3 & H)]].
  - rewrite H. by eexists _, _.
  - rewrite H1. cbn [negb]. destruct H as [-> | ->].
    + by eexists _, _.
    + rewrite orb_true_r. by eexists _, _.
  - rewrite H1, H2, H3. cbn [negb orb].
    destruct H as [-> | [(s & -> & Hs) ->]].
    + by eexists _, _.
    + destruct s as [|c s]; [done|]. by eexists _, _.
Qed.

(** Every listing of a view built by [searchViewFactory] has an endpoint
    whose [isFinished] entry is a boolean. *)
Lemma createListing_flag_is_boolean
    (serializeObject : object → string) (url : object) (name : string)
    (cfg : options) (v v' : view) :
  (∀ n l, listings v !! n = Some l → flag_is_boolean (l_endpoint l)) →
  createListing serializeObject url name cfg v = Ok v' →
  ∀ n l, listings v' !! n = Some l → flag_is_boolean (l_endpoint l).
Proof.
  intros Hv Hc n l. unfold createListing in Hc.
  repeat match type of Hc with
         | (if ?b then _ else _) = _ => destruct b
         | match ?x with Ok _ => _ | TypeError => _ end = _ => destruct x
         end;
    try discriminate; injection Hc as <-; try apply Hv.
  unfold register. destruct (String.eqb name "__proto__"); [apply Hv|].
  cbn [listings with_listing]. rewrite lookup_insert.
  case_decide; [|apply Hv].
  intros [= <-]. apply postEndpointFactory_flag_is_boolean.
Qed.

Lemma createListings_flag_is_boolean
    (serializeObject : object → string) (url : object)
    (cfg : list (string * options)) (v v' : view) :
  (∀ n l, listings v !! n = Some l → flag_is_boolean (l_endpoint l)) →
  createListings serializeObject url cfg v = Ok v' →
  ∀ n l, listings v' !! n = Some l → flag_is_boolean (l_endpoint l).
Proof.
  revert v. induction cfg as [|[name c] cfg IH]; intros v Hv Hc.
  - by injection Hc as <-.
  - cbn [createListings] in Hc.
    destruct (createListing serializeObject url name c v) as [v1|] eqn:H1;
      [|done].
    eapply IH; [|exact Hc].
    by eapply createListing_flag_is_boolean.
Qed.

Lemma searchViewFactory_flag_is_boolean
    (serializeObject : object → string) (url : object)
    (cfg : list (string * options)) (v : view) :
  searchViewFactory serializeObject url cfg = Ok v →
  ∀ n l, listings v !! n = Some l → flag_is_boolean (l_endpoint l).
Proof.
  unfold searchViewFactory. intros H.
  eapply createListings_flag_is_boolean; [|exact H].
  intros n l. by destruct cfg.
Qed.

(** C8 (what the code does): a configuration that has its root element and
    its template function but no [pathname] entry makes [createListing]
    throw, on reading [pathname.length], instead of warning. *)
Theorem createListing_without_pathname_throws
    (serializeObject : object → string) (url : object) (name : string)
    (cfg : options) (v : view) (id arity : nat) (source : string) :
  cfg !! "rootEl"%string = Some (JElement id) →
  cfg !! "template"%string = Some (JFunction arity source) →
  cfg !! "pathname"%string = None →
  createListing serializeObject url name cfg v = TypeError.
Proof.
  intros Hroot Htemplate Hpath. unfold createListing, prop.
  rewrite (lookup_union_Some_l _ _ _ _ Hroot).
  rewrite (lookup_union_Some_l _ _ _ _ Htemplate).
  assert (Hnone : (cfg ∪ listingDefaults) !! "pathname"%string = None).
  { apply lookup_union_None. split; [done|]. by vm_compute. }
  by rewrite Hnone.
Qed.

(** C8, on the configuration of the usage example without its
    [pathname]: the call throws, and so does the factory that makes it. *)
Lemma createListing_without_pathname_witness :
  createListing plain_query_string ∅ "posts" config_without_pathname
    posts_view = TypeError.
Proof.
  apply (createListing_without_pathname_throws plain_query_string ∅ "posts"
           config_without_pathname posts_view 1 1
           "post => `<div>${ post.title.rendered }</div>`");
    vm_compute; reflexivity.
Defined.

(** An explicit [searchParam: undefined] replaces the default and throws
    in the same way. *)
Example createListing_undefined_searchParam_throws :
  createListing plain_query_string ∅ "posts"
    (<["searchParam"%string := JUndefined]> posts_config) posts_view
  = TypeError.
Proof. vm_compute. reflexivity. Qed.

Example searchViewFactory_without_pathname_throws :
  searchViewFactory plain_query_string ∅
    [("posts"%string, config_without_pathname)] = TypeError.
Proof. vm_compute. reflexivity. Qed.

(** C6, on the endpoint of the usage example: the third answer finishes
    it, and ['listing-finished'] has then been published once. *)
Lemma posts_endpoint_finished_on_third_page :
  let e3 := run_calls plain_query_string
              [Get; GetThen response_total_30; Get; GetThen response_total_30;
               Get; GetThen response_total_30] posts_endpoint in
  getPage e3 = 3 ∧ isFinished e3 = true ∧
  count_published "listing-finished" (box e3) = 1%nat.
Proof.
  intros e3.
  destruct (finished_on_third_page_of_30 plain_query_string posts_endpoint
              response_total_30 response_total_30 response_total_30)
    as (_ & _ & (P3 & F3 & C3) & _); try (vm_compute; reflexivity).
  split; [exact P3|]. split; [exact F3|]. exact C3.
Defined.

(** A [per_page] given as the text ["1e1"] counts for 10: the first page
    of 10 posts finishes the endpoint. *)
Example per_page_exponent_text_finishes :
  getParam "per_page" ten_per_page_endpoint = Own (VStr "1e1") ∧
  getPage ten_per_page_endpoint = 1 ∧
  isFinished (get_then response_total_10 ten_per_page_endpoint).1 = true ∧
  count_published "listing-finished"
    (box (get_then response_total_10 ten_per_page_endpoint).1) = 1%nat.
Proof. vm_compute. done. Qed.

(** * Further properties of the code *)

(** ** State container: what a write leaves in the state *)

Lemma loose_equals_same_kind v w :
  same_kind v w → loose_equals v w = true → v = w.
Proof.
  destruct v as [b1|z1| |s1], w as [b2|z2| |s2]; try done; cbn.
  - by destruct b1, b2.
  - by intros _ ->%Z.eqb_eq.
  - by intros _ ->%String.eqb_eq.
Qed.

Lemma setState_state_same_kind c data :
  (∀ k v w, data !! k = Some v → state c !! k = Some w → same_kind v w) →
  state (setState data c) = assign (state c) data.
Proof.
  intros Hkind.
  destruct (equal (assign (state c) data) (state c)) eqn:E.
  - rewrite setState_unchanged by done.
    apply equal_true_iff in E as [_ E]. apply map_eq. intros k.
    unfold assign in *. destruct (data !! k) as [v|] eqn:Hd.
    + rewrite (lookup_union_Some_l _ _ _ _ Hd).
      destruct (E k v (lookup_union_Some_l _ _ _ _ Hd)) as (w & Hw & Heq).
      rewrite Hw. f_equal. symmetry.
      apply loose_equals_same_kind; [by eapply Hkind | done].
    + by rewrite lookup_union_r.
  - by rewrite setState_changed.
Qed.

(** X1: when every key written by [setState] is new or holds a value of
    the same primitive type as the one written, the state afterwards is
    exactly [{...current, ...partial}]: no write is lost to the equality
    check, and the other keys keep their values. *)
Theorem setState_same_kind_reads_back (c : container) (data : object) :
  (∀ k v w, data !! k = Some v → state c !! k = Some w → same_kind v w) →
  state (setState data c) = assign (state c) data ∧
  (∀ k v, data !! k = Some v → state (setState data c) !! k = Some v) ∧
  (∀ k, data !! k = None → state (setState data c) !! k = state c !! k).
Proof.
  intros Hkind. rewrite (setState_state_same_kind _ _ Hkind).
  split; [done|]. unfold assign. split.
  - intros k v Hk. by apply lookup_union_Some_l.
  - intros k Hk. by apply lookup_union_r.
Qed.

(** X1, on the state of a fresh view and [{loading: true}]. *)
Lemma setState_loading_reads_back :
  let c := v_box posts_view in
  let data : object := {[ "loading"%string := VBool true ]} in
  state (setState data c) = assign (state c) data.
Proof.
  intros c data.
  apply (setState_same_kind_reads_back c data).
  intros k v w Hd Hc. subst data.
  apply lookup_singleton_Some in Hd as [<- <-].
  vm_compute in Hc. by injection Hc as <-.
Defined.

(** A write of another type can be lost: ["1" == 1], so the state keeps
    the number. *)
Example setState_loose_write_is_lost :
  let c := stateMixin {[ "foundPosts"%string := VNum 1 ]} in
  setState {[ "foundPosts"%string := VStr "1" ]} c = c.
Proof. vm_compute. reflexivity. Qed.

(** ** Request cache: what it keeps *)

Lemma run_cache_keeps acts s s' :
  run acts s = Some s' →
  (∀ r p, requests (s_cache s) !! r = Some p →
          requests (s_cache s') !! r = Some p) ∧
  (∃ more, network (s_cache s') = network (s_cache s) ++ more) ∧
  (size (requests (s_cache s)) = length (network (s_cache s)) →
   size (requests (s_cache s')) = length (network (s_cache s'))).
Proof.
  revert s. induction acts as [|a acts IH]; intros s Hrun; cbn in Hrun.
  - injection Hrun as <-. split; [done|]. split; [|done].
    exists []. by rewrite app_nil_r.
  - destruct (step a s) as [s1|] eqn:Hs; [|done].
    destruct (IH _ Hrun) as (Hk & [more Hn] & Hsz).
    assert (H1 : (∀ r p, requests (s_cache s) !! r = Some p →
                         requests (s_cache s1) !! r = Some p) ∧
                 (∃ more1, network (s_cache s1)
                           = network (s_cache s) ++ more1) ∧
                 (size (requests (s_cache s)) = length (network (s_cache s)) →
                  size (requests (s_cache s1))
                  = length (network (s_cache s1)))).
    { destruct a as [request method | p r | p | l]; cbn [step] in Hs.
      - destruct (fetch_cases request method (s_cache s))
          as [(Hnone & _ & F)|[(q & Hq & F)|(_ & _ & F)]]; rewrite F in Hs;
          injection Hs as <-; cbn [s_cache] in *.
        + split.
          { intros r p Hr. cbn [requests].
            rewrite lookup_insert_ne; [done|]. congruence. }
          split; [by eexists|]. intros Hsz0.
          cbn [requests network]. rewrite map_size_insert_None by done.
          rewrite length_app. cbn. lia.
        + split; [done|]. split; [|done]. exists []. by rewrite app_nil_r.
        + split; [done|]. split; [|done]. exists []. by rewrite app_nil_r.
      - case_bool_decide; [|done].
        destruct (s_settled s !! p); [done|]. injection Hs as <-.
        split; [done|]. split; [|done]. exists []. by rewrite app_nil_r.
      - destruct (s_settled s !! p) as [lo|]; [|done].
        destruct (clone lo (s_heap s)) as [[h l']|]; [|done].
        injection Hs as <-.
        split; [done|]. split; [|done]. exists []. by rewrite app_nil_r.
      - case_bool_decide; [|done].
        destruct (json l (s_heap s)) as [[h b]|]; [|done].
        injection Hs as <-.
        split; [done|]. split; [|done]. exists []. by rewrite app_nil_r. }
    destruct H1 as (Hk1 & [more1 Hn1] & Hsz1).
    split; [intros r p Hr; by apply Hk, Hk1|].
    split; [exists (more1 ++ more); by rewrite Hn, Hn1, (assoc_L (++))|].
    intros H0. by apply Hsz, Hsz1.
Qed.

(** X2: the request cache never evicts and never remaps: along any
    continuation of a session every cached request keeps its promise and
    the log of network calls only grows; and it issues no call it does not
    cache: there are always as many network calls as cached requests. *)
Theorem cache_never_evicts (acts more : list action) (s s' : session) :
  run acts new_session = Some s →
  run more s = Some s' →
  size (requests (s_cache s')) = length (network (s_cache s')) ∧
  (∀ r p, requests (s_cache s) !! r = Some p →
          requests (s_cache s') !! r = Some p) ∧
  (∃ calls, network (s_cache s') = network (s_cache s) ++ calls).
Proof.
  intros H1 H2.
  destruct (run_cache_keeps _ _ _ H1) as (_ & _ & Hsz).
  destruct (run_cache_keeps _ _ _ H2) as (Hk & Hn & Hsz').
  split; [|done]. apply Hsz', Hsz. done.
Qed.

(** X2, on the session of two fetches followed by a fetch of page 2. *)
Lemma cache_never_evicts_witness :
  let more := [CallFetch "/wp-json/wp/v2/posts?per_page=12&page=2"
                 (Some "GET"%string)] in
  let s' := default new_session (run more after_two_fetches) in
  run more after_two_fetches = Some s' ∧
  size (requests (s_cache s')) = length (network (s_cache s')) ∧
  length (network (s_cache s')) = 2%nat.
Proof.
  intros more s'.
  assert (H1 : run two_fetches new_session = Some after_two_fetches)
    by (vm_compute; reflexivity).
  assert (H2 : run more after_two_fetches = Some s')
    by (vm_compute; reflexivity).
  split; [exact H2|]. split; [|vm_compute; reflexivity].
  exact (proj1 (cache_never_evicts two_fetches more after_two_fetches s'
                  H1 H2)).
Defined.

(** ** Query endpoint: parameters, restart, cache hits, degraded mode *)

Lemma delete_empty_lookup (ps : object) k :
  delete_empty ps !! k = kept (ps !! k).
Proof.
  unfold delete_empty, kept. destruct (ps !! k) as [v|] eqn:Hk.
  - destruct (is_empty_string v) eqn:Hv.
    + apply map_lookup_filter_None. right. intros w Hw. rewrite Hk in Hw.
      injection Hw as <-. cbn. by rewrite Hv.
    + apply map_lookup_filter_Some. by split.
  - apply map_lookup_filter_None. by left.
Qed.

Lemma assign_lookup (target source : object) k :
  assign target source !! k =
  match source !! k with Some v => Some v | None => target !! k end.
Proof.
  unfold assign. destruct (source !! k) as [v|] eqn:Hk.
  - by apply lookup_union_Some_l.
  - by rewrite lookup_union_r.
Qed.

Lemma kept_idemp o : kept (kept o) = kept o.
Proof.
  destruct o as [v|]; [|done]. cbn.
  destruct (is_empty_string v) eqn:Hv; [done|]. cbn. by rewrite Hv.
Qed.

Lemma setQuery_params_lookup serializeObject query runQuery e k :
  params (setQuery serializeObject query runQuery e).1 !! k =
  kept (match query !! k with Some v => Some v | None => params e !! k end).
Proof.
  rewrite setQuery_params, delete_empty_lookup. by rewrite assign_lookup.
Qed.

Lemma setQuery_params_again serializeObject query r1 r2 e :
  params (setQuery serializeObject query r2
            (setQuery serializeObject query r1 e).1).1
  = params (setQuery serializeObject query r1 e).1.
Proof.
  apply map_eq. intros k. rewrite !setQuery_params_lookup.
  destruct (query !! k) as [v|]; [done|]. by rewrite kept_idemp.
Qed.

(** What [setQuery(query)] does when it runs the query, on an endpoint
    whose [isFinished] entry is a boolean. *)
Lemma setQuery_run_details serializeObject query e :
  flag_is_boolean e →
  let mid := (setQuery serializeObject query false e).1 in
  ∃ c p,
    fetch (next_request serializeObject mid) (Some (method e)) (reqs e)
    = Ok (c, p) ∧
    setQuery serializeObject query true e
    = (with_reqs c (with_page 1 mid), BodyOf p) ∧
    state (box mid) !! "isFinished"%string = Some (VBool false).
Proof.
  intros [b Hb] mid.
  assert (Hflag : state (box mid) !! "isFinished"%string = Some (VBool false)).
  { unfold mid. rewrite setQuery_no_run. cbn [fst box with_params with_box].
    eapply setState_lookup_bool; [exact Hb | apply lookup_singleton_eq]. }
  rewrite setQuery_run. fold mid.
  destruct (get_not_finished serializeObject mid
              (isFinished_of_flag _ _ Hflag)) as (c & p & Hf & ->).
  exists c, p. split; [exact Hf|]. done.
Qed.

Lemma setQuery_restart_facts serializeObject e query :
  flag_is_boolean e →
  ∃ p,
    (setQuery serializeObject query true e).2 = BodyOf p ∧
    isFinished (setQuery serializeObject query true e).1 = false ∧
    page (setQuery serializeObject query true e).1 = 1 ∧
    requests (reqs (setQuery serializeObject query true e).1)
      !! (pathname e +:+ "?" +:+
          serializeObject
            (assign (params (setQuery serializeObject query true e).1)
               {[ "page"%string := VNum 1 ]}))
    = Some p.
Proof.
  intros Hflag.
  destruct (setQuery_run_details serializeObject query e Hflag)
    as (c & p & Hfetch & Hd & Hf).
  rewrite Hd. exists p. split; [reflexivity|].
  split; [by apply isFinished_of_flag|]. split; [done|].
  cbn [fst reqs with_reqs getParams params with_page].
  eapply fetch_returns_cached. exact Hfetch.
Qed.

(** X4: [setQuery(query)] restarts the endpoint wherever it stands, also
    when it is finished: the call returns a promise, never nothing; the
    endpoint is then not finished and on page 1, and the request for that
    first page, built from the new parameters, is in the cache under the
    promise returned. *)
Theorem setQuery_restarts
    (serializeObject : object → string) (e : endpoint) (query : object) :
  flag_is_boolean e →
  let e' := (setQuery serializeObject query true e).1 in
  ∃ p,
    (setQuery serializeObject query true e).2 = BodyOf p ∧
    isFinished e' = false ∧
    getPage e' = 1 ∧
    requests (reqs e')
      !! (pathname e +:+ "?" +:+
          serializeObject
            (assign (getParams e') {[ "page"%string := VNum 1 ]}))
    = Some p.
Proof.
  intros Hflag e'. exact (setQuery_restart_facts serializeObject e query Hflag).
Qed.

(** X4, on the finished endpoint of the usage example. *)
Lemma setQuery_restarts_witness :
  let e := run_calls plain_query_string
             [Get; GetThen response_total_30; Get; GetThen response_total_30;
              Get; GetThen response_total_30] posts_endpoint in
  let e' := (setQuery plain_query_string
               {[ "search"%string := VStr "dog" ]} true e).1 in
  isFinished e = true ∧ isFinished e' = false ∧ getPage e' = 1.
Proof.
  intros e e'.
  assert (Hflag : flag_is_boolean e) by (exists true; vm_compute; reflexivity).
  destruct (setQuery_restarts plain_query_string e
              {[ "search"%string := VStr "dog" ]} Hflag)
    as (p & _ & Hfin & Hpage & _).
  split; [vm_compute; reflexivity|]. split; [exact Hfin | exact Hpage].
Defined.

(** X5: running the same query a second time makes no network call: the
    parameters come out the same, so the request for page 1 is found in
    the cache, and the call returns the promise of the first run. *)
Theorem setQuery_again_hits_cache
    (serializeObject : object → string) (e : endpoint) (query : object) :
  flag_is_boolean e →
  let first := setQuery serializeObject query true e in
  let second := setQuery serializeObject query true first.1 in
  reqs second.1 = reqs first.1 ∧
  second.2 = first.2 ∧
  getParams second.1 = getParams first.1 ∧
  getPage second.1 = 1.
Proof.
  intros Hflag first second. subst second.
  assert (Hflag1 : flag_is_boolean first.1)
    by (by apply setQuery_flag_is_boolean).
  destruct (setQuery_run_details serializeObject query first.1 Hflag1)
    as (c2 & p2 & Hfetch' & Hd' & _).
  destruct (setQuery_run_details serializeObject query e Hflag)
    as (c1 & p1 & Hfetch & Hd & _).
  fold first in Hd.
  assert (Hps : params (setQuery serializeObject query false first.1).1
                = params first.1)
    by apply setQuery_params_again.
  pose proof (setQuery_params serializeObject query false e) as Hmid.
  assert (Hfirst : params first.1 = delete_empty (assign (params e) query))
    by apply setQuery_params.
  set (mid := (setQuery serializeObject query false e).1) in *.
  set (mid' := (setQuery serializeObject query false first.1).1) in *.
  assert (Hreq : next_request serializeObject mid'
                 = next_request serializeObject mid).
  { unfold next_request.
    assert (Hpath : pathname mid' = pathname mid)
      by (change (pathname first.1 = pathname mid); by rewrite Hd).
    assert (Hpage : page mid' = page mid) by done.
    rewrite Hpath, Hpage, Hps, Hfirst, Hmid. done. }
  assert (Hcached : requests (reqs first.1)
                      !! next_request serializeObject mid
                    = Some p1).
  { rewrite Hd. cbn [fst snd reqs with_reqs].
    eapply fetch_returns_cached. exact Hfetch. }
  assert (Hhit : fetch (next_request serializeObject mid')
                   (Some (method first.1)) (reqs first.1)
                 = Ok (reqs first.1, p1)).
  { rewrite Hreq. unfold fetch. by rewrite Hcached. }
  rewrite Hhit in Hfetch'. injection Hfetch' as <- <-.
  rewrite Hd'.
  cbn [fst snd reqs with_reqs getParams params with_page getPage page].
  split; [done|]. split; [by rewrite Hd|]. split; [|done].
  by rewrite Hps.
Qed.

(** X5, on the endpoint of the usage example and the query
    [{search: "dog"}]. *)
Lemma setQuery_again_hits_cache_witness :
  let q : object := {[ "search"%string := VStr "dog" ]} in
  let first := setQuery plain_query_string q true posts_endpoint in
  let second := setQuery plain_query_string q true first.1 in
  length (network (reqs first.1)) = 1%nat ∧ reqs second.1 = reqs first.1.
Proof.
  intros q first second.
  split; [vm_compute; reflexivity|].
  refine (proj1 (setQuery_again_hits_cache plain_query_string posts_endpoint
                   q _)).
  exists false. vm_compute. reflexivity.
Defined.

Lemma get_then_without_total res e :
  without_total res →
  get_then res e = (warn missing_total_warning e, body res).
Proof. unfold get_then. by intros [-> | ->]. Qed.

(** X6: as long as the responses carry no [X-WP-TOTAL] header, [get()] and
    its callback never touch the state of the endpoint: it is never marked
    finished, nothing is published, and each response only adds one
    warning to the console. *)
Theorem headerless_responses_never_finish
    (serializeObject : object → string) (cs : list call) (e : endpoint) :
  Forall headerless_call cs →
  box (run_calls serializeObject cs e) = box e ∧
  isFinished (run_calls serializeObject cs e) = isFinished e ∧
  length (console (run_calls serializeObject cs e))
  = (length (console e) + responses_in cs)%nat.
Proof.
  intros Hcs.
  assert (H : box (run_calls serializeObject cs e) = box e ∧
              length (console (run_calls serializeObject cs e))
              = (length (console e) + responses_in cs)%nat).
  { revert e. induction Hcs as [|c cs Hc _ IH]; intros e.
    - split; [done|]. unfold responses_in. cbn. lia.
    - unfold PostEndpoint.run_calls in *. cbn [fold_left].
      destruct (IH (run_call serializeObject c e)) as [IHb IHc].
      rewrite IHb, IHc. destruct c as [|res| |]; cbn in Hc; try done.
      + cbn [run_call].
        destruct (get_frame serializeObject e) as (_ & _ & _ & -> & ->).
        split; [done|]. unfold responses_in. cbn. lia.
      + cbn [run_call]. rewrite (get_then_without_total _ _ Hc).
        cbn [fst box warn console]. split; [done|].
        rewrite length_app. unfold responses_in. cbn. lia. }
  destruct H as [Hb Hc]. split; [done|]. split; [|done].
  unfold isFinished. by rewrite Hb.
Qed.

(** X6, on the endpoint of the usage example and two answered pages. *)
Lemma headerless_responses_witness :
  let e := run_calls plain_query_string
             [Get; GetThen response_without_total;
              Get; GetThen response_without_total] posts_endpoint in
  isFinished e = false ∧ getPage e = 2 ∧ length (console e) = 2%nat.
Proof.
  intros e.
  destruct (headerless_responses_never_finish plain_query_string
              [Get; GetThen response_without_total;
               Get; GetThen response_without_total] posts_endpoint)
    as (_ & Hf & Hc).
  { repeat constructor. }
  split; [exact Hf|]. split; [vm_compute; reflexivity | exact Hc].
Defined.

Lemma get_consts serializeObject e :
  pathname (get serializeObject e).1 = pathname e ∧
  method (get serializeObject e).1 = method e.
Proof.
  destruct (isFinished e) eqn:H.
  - by rewrite get_finished.
  - by destruct (get_not_finished serializeObject e H) as (c & p & _ & ->).
Qed.

Lemma get_then_consts res e :
  pathname (get_then res e).1 = pathname e ∧
  method (get_then res e).1 = method e.
Proof.
  unfold get_then.
  destruct (headers res !! "X-WP-TOTAL"%string) as [[|a total]|]; [done| |done].
  destruct (ge _ _); done.
Qed.

Lemma run_call_consts serializeObject c e :
  pathname (run_call serializeObject c e) = pathname e ∧
  method (run_call serializeObject c e) = method e.
Proof.
  destruct c as [|res|query [|]|]; cbn [run_call].
  - apply get_consts.
  - apply get_then_consts.
  - rewrite setQuery_run.
    by destruct (get_consts serializeObject
                   (setQuery serializeObject query false e).1) as [-> ->].
  - done.
  - done.
Qed.

Lemma get_own_calls serializeObject e :
  own_calls_only e → own_calls_only (get serializeObject e).1.
Proof.
  intros Hown. destruct (isFinished e) eqn:H.
  - by rewrite get_finished.
  - destruct (get_not_finished serializeObject e H) as (c & p & Hf & ->).
    intros n. cbn [fst reqs with_reqs method pathname with_page].
    destruct (fetch_cases
                (pathname e +:+ "?" +:+
                 serializeObject
                   (assign (params e) {[ "page"%string := VNum (page e + 1) ]}))
                (Some (method e)) (reqs e))
      as [(_ & _ & F)|[(q & _ & F)|(_ & _ & F)]];
      rewrite F in Hf; [|injection Hf as <- <-; apply Hown|done].
    injection Hf as <- <-.
    cbn [network]. intros [Hin|Hin%list_elem_of_singleton]%elem_of_app;
      [by apply Hown|]. subst n. cbn. split; [done|]. split; [|done].
    by eexists.
Qed.

Lemma run_call_own_calls serializeObject c e :
  own_calls_only e ∧ 0 ≤ page e →
  own_calls_only (run_call serializeObject c e) ∧
  0 ≤ page (run_call serializeObject c e).
Proof.
  intros [Hown Hpage]. destruct c as [|res|query runQuery|]; cbn [run_call].
  - split; [by apply get_own_calls|].
    rewrite (proj1 (get_frame serializeObject e)). lia.
  - destruct (get_then_frame res e) as (Hp & _ & _ & Hr).
    destruct (get_then_consts res e) as [Hpath Hm].
    split; [|by rewrite Hp].
    intros n. rewrite Hr, Hpath, Hm. apply Hown.
  - split.
    + destruct runQuery; [|exact Hown].
      rewrite setQuery_run. apply get_own_calls. exact Hown.
    + rewrite setQuery_page. by destruct runQuery.
  - done.
Qed.

(** X7: an endpoint only ever asks the network for its own resource: in
    every state reached from the factory, each network call it has made is
    for its [pathname] followed by a query string, uses the method it was
    built with, and carries a body only if that method is ['post']; its
    page counter is never negative. *)
Theorem endpoint_requests_own_path_only
    (serializeObject : object → string) (path : string) (cfg : object)
    (parseURL : bool) (verb : string) (url : object) (calls : list call) :
  let e := run_calls serializeObject calls
             (postEndpointFactory serializeObject path cfg parseURL verb url) in
  pathname e = path ∧ method e = verb ∧ 0 ≤ getPage e ∧
  ∀ n, n ∈ network (reqs e) →
    nc_method n = verb ∧
    (∃ query, nc_endpoint n = path +:+ "?" +:+ query) ∧
    nc_body n = if String.eqb verb "post" then Some default_body else None.
Proof.
  intros e.
  assert (H : ∀ cs e0,
             own_calls_only e0 ∧ 0 ≤ page e0 →
             (own_calls_only (run_calls serializeObject cs e0) ∧
              0 ≤ page (run_calls serializeObject cs e0)) ∧
             pathname (run_calls serializeObject cs e0) = pathname e0 ∧
             method (run_calls serializeObject cs e0) = method e0).
  { induction cs as [|c cs IH]; intros e0 H0; [done|].
    unfold PostEndpoint.run_calls in *. cbn [fold_left].
    destruct (IH _ (run_call_own_calls serializeObject c e0 H0))
      as (Hok & -> & ->).
    split; [done|]. apply run_call_consts. }
  set (e0 := postEndpointFactory serializeObject path cfg parseURL verb url)
    in *.
  assert (H0 : (own_calls_only e0 ∧ 0 ≤ page e0) ∧
               pathname e0 = path ∧ method e0 = verb).
  { unfold e0, postEndpointFactory. destruct parseURL.
    - split; [|apply (run_call_consts serializeObject (SetQuery url true))].
      apply (run_call_own_calls serializeObject (SetQuery url true)).
      split; [|done]. intros n Hn. by apply elem_of_nil in Hn.
    - split; [|done]. split; [|done].
      intros n Hn. by apply elem_of_nil in Hn. }
  destruct H0 as (H0 & Hpath & Hverb).
  destruct (H calls e0 H0) as ((Hown & Hpage) & Hp & Hm). fold e in Hown, Hpage, Hp, Hm.
  rewrite Hp, Hm, Hpath, Hverb. split; [done|]. split; [done|].
  split; [done|]. intros n Hn. destruct (Hown n Hn) as (A & [q B] & C).
  rewrite Hm, Hverb in A, C. rewrite Hp, Hpath in B.
  split; [done|]. split; [by exists q | done].
Qed.

(** ** Search view: totals, input, search, scroll loading, load more *)

Import Handlers.

Lemma getTotalFoundPosts_insert name l v :
  listings v !! name = None →
  getTotalFoundPosts (with_listing name l v)
  = getTotalFoundPosts v + found_in l.
Proof.
  intros Hn. unfold getTotalFoundPosts. cbn [listings with_listing].
  rewrite map_fold_insert_L; [done| |done].
  intros. lia.
Qed.

(** X8: [getTotalFoundPosts()] is the sum of what the listings found: a
    view without listings has found 0; registering a listing under a new
    name adds its [foundPosts], putting another in place of an existing
    one exchanges the two contributions; and a listing whose [foundPosts]
    is NaN, or anything but an integer, counts for nothing. *)
Theorem getTotalFoundPosts_is_sum (v : view) (name : string) (l : listing) :
  (listings v = ∅ → getTotalFoundPosts v = 0) ∧
  (listings v !! name = None →
   getTotalFoundPosts (with_listing name l v)
   = getTotalFoundPosts v + found_in l) ∧
  (∀ l0, listings v !! name = Some l0 →
   getTotalFoundPosts (with_listing name l v)
   = getTotalFoundPosts v - found_in l0 + found_in l) ∧
  (∀ z, state (box (l_endpoint l)) !! "foundPosts"%string = Some (VNum z) →
        found_in l = z) ∧
  (state (box (l_endpoint l)) !! "foundPosts"%string = Some VNaN →
   found_in l = 0).
Proof.
  split; [|split; [|split; [|split]]].
  - intros He. unfold getTotalFoundPosts. rewrite He. apply map_fold_empty.
  - apply getTotalFoundPosts_insert.
  - intros l0 Hl0.
    set (v0 := {| v_box := v_box v; listings := delete name (listings v);
                  v_console := v_console v |}).
    assert (Hdel : listings v0 !! name = None) by apply lookup_delete_eq.
    assert (H1 : with_listing name l v = with_listing name l v0).
    { unfold with_listing, v0. cbn. by rewrite insert_delete_eq. }
    assert (H2 : v = with_listing name l0 v0).
    { unfold with_listing, v0. cbn. rewrite insert_delete_eq.
      rewrite insert_id by done. by destruct v. }
    assert (Ht : getTotalFoundPosts v
                 = getTotalFoundPosts (with_listing name l0 v0))
      by (by rewrite <- H2).
    rewrite H1, Ht, !(getTotalFoundPosts_insert _ _ _ Hdel). lia.
  - intros z Hz. unfold found_in. by rewrite Hz.
  - intros Hz. unfold found_in. by rewrite Hz.
Qed.

Lemma view_state_typed_same_kind c (data : object) :
  view_state_typed c →
  (∀ k v, data !! k = Some v →
     ((k = "loading"%string ∨ k = "visible"%string) ∧ ∃ b, v = VBool b) ∨
     (k = "foundPosts"%string ∧ ∃ z, v = VNum z)) →
  state (setState data c) = assign (state c) data ∧
  view_state_typed (setState data c).
Proof.
  intros (b1 & b2 & z & Hl & Hv & Hf) Hdata.
  assert (Hs : state (setState data c) = assign (state c) data).
  { apply setState_state_same_kind. intros k v w Hk Hw.
    destruct (Hdata k v Hk) as [[[-> | ->] [b ->]]|[-> [z' ->]]].
    - rewrite Hl in Hw. by injection Hw as <-.
    - rewrite Hv in Hw. by injection Hw as <-.
    - rewrite Hf in Hw. by injection Hw as <-. }
  split; [done|]. unfold view_state_typed. rewrite Hs, !assign_lookup.
  assert (Hb : ∀ k b0, (k = "loading"%string ∨ k = "visible"%string) →
            state c !! k = Some (VBool b0) →
            ∃ b, match data !! k with Some v => Some v | None => state c !! k end
                 = Some (VBool b)).
  { intros k b0 Hk Hc. destruct (data !! k) as [v|] eqn:Hd; [|by eexists].
    destruct (Hdata k v Hd) as [[_ [b ->]]|[-> _]]; [by eexists|].
    by destruct Hk. }
  destruct (Hb _ _ (or_introl eq_refl) Hl) as [l' Hl'].
  destruct (Hb _ _ (or_intror eq_refl) Hv) as [v' Hv'].
  exists l', v'.
  destruct (data !! "foundPosts"%string) as [w|] eqn:Hd.
  - destruct (Hdata _ w Hd) as [[[?|?] _]|[_ [z' ->]]]; [done|done|].
    by exists z'.
  - by exists z.
Qed.

(** X9: on a view whose state holds its entries with their types,
    [setResultsVariables()] leaves [loading] false and [foundPosts] equal
    to the total found by the listings, and touches neither [visible] nor
    the listings. *)
Theorem setResultsVariables_settles (v : view) :
  view_state_typed (v_box v) →
  let v' := setResultsVariables v in
  state (v_box v') !! "loading"%string = Some (VBool false) ∧
  state (v_box v') !! "foundPosts"%string
  = Some (VNum (getTotalFoundPosts v)) ∧
  state (v_box v') !! "visible"%string
  = state (v_box v) !! "visible"%string ∧
  listings v' = listings v ∧
  view_state_typed (v_box v').
Proof.
  intros Ht v'. subst v'. unfold setResultsVariables, view_setState.
  cbn [v_box listings].
  set (data := ({[ "loading"%string := VBool false;
                   "foundPosts"%string := VNum (getTotalFoundPosts v) ]}
                 : object)).
  destruct (view_state_typed_same_kind (v_box v) data Ht) as [Hs Ht'].
  { intros k w Hk. unfold data in Hk.
    apply lookup_insert_Some in Hk as [[<- <-]|[_ Hk]]; [left; eauto|].
    apply lookup_singleton_Some in Hk as [<- <-]. right. eauto. }
  rewrite Hs, !assign_lookup. unfold data.
  split; [by rewrite lookup_insert_eq|].
  split; [by rewrite lookup_insert_ne, lookup_singleton_eq|].
  split; [|done].
  by rewrite lookup_insert_ne, lookup_singleton_ne.
Qed.

(** X9, on the sample view while a search is under way: the view is
    loading and counts no post, the posts have found 30; afterwards the
    view is not loading and counts 30. *)
Lemma setResultsVariables_witness :
  let v' := setResultsVariables searching_view in
  state (v_box searching_view) !! "loading"%string = Some (VBool true) ∧
  state (v_box searching_view) !! "foundPosts"%string = Some (VNum 0) ∧
  getTotalFoundPosts searching_view = 30 ∧
  state (v_box v') !! "loading"%string = Some (VBool false) ∧
  state (v_box v') !! "foundPosts"%string
  = Some (VNum (getTotalFoundPosts searching_view)).
Proof.
  intros v'.
  destruct (setResultsVariables_settles searching_view) as (Hl & Hf & _).
  { exists true, true, 0. by vm_compute. }
  split; [vm_compute; reflexivity|]. split; [vm_compute; reflexivity|].
  split; [vm_compute; reflexivity|]. split; [exact Hl|]. exact Hf.
Defined.

(** X10: on a view whose state holds its entries with their types, an
    input event sets [loading] and [visible] both to whether the input
    holds any text, whatever they were, and leaves [foundPosts] and the
    listings alone: typing shows the view as loading at once, emptying the
    input hides it without any query being made. *)
Theorem on_input_shows_or_hides (value : string) (v : view) :
  view_state_typed (v_box v) →
  let v' := on_input value v in
  let typed := negb (String.length value =? 0)%nat in
  state (v_box v') !! "loading"%string = Some (VBool typed) ∧
  state (v_box v') !! "visible"%string = Some (VBool typed) ∧
  state (v_box v') !! "foundPosts"%string
  = state (v_box v) !! "foundPosts"%string ∧
  listings v' = listings v ∧
  view_state_typed (v_box v').
Proof.
  intros Ht v' typed. subst v'. unfold on_input, view_setState.
  cbn [v_box listings]. fold typed.
  set (data := ({[ "loading"%string := VBool typed;
                   "visible"%string := VBool typed ]} : object)).
  destruct (view_state_typed_same_kind (v_box v) data Ht) as [Hs Ht'].
  { intros k w Hk. unfold data in Hk. left.
    apply lookup_insert_Some in Hk as [[<- <-]|[_ Hk]]; [eauto|].
    apply lookup_singleton_Some in Hk as [<- <-]. eauto. }
  rewrite Hs, !assign_lookup. unfold data.
  split; [by rewrite lookup_insert_eq|].
  split; [by rewrite lookup_insert_ne, lookup_singleton_eq|].
  split; [|done].
  by rewrite lookup_insert_ne, lookup_singleton_ne.
Qed.

(** X10, on the sample view and the text ["dog"]. *)
Lemma on_input_witness :
  let v' := on_input "dog" posts_view in
  state (v_box v') !! "loading"%string = Some (VBool true) ∧
  state (v_box v') !! "visible"%string = Some (VBool true).
Proof.
  intros v'.
  destruct (on_input_shows_or_hides "dog" posts_view) as (Hl & Hv & _).
  { exists false, false, 0. by vm_compute. }
  split; [exact Hl | exact Hv].
Defined.

(** A loop over listings that handles each entry once: every turn keeps
    the console and the other listings, and turns its own listing into
    [upd] of it. *)
Lemma fold_listings
    (step : outcome view → string * listing → outcome view)
    (upd : listing → listing) (I J : view → Prop)
    (ls : list (string * listing)) (v0 : view) :
  (∀ v entry, entry ∈ ls → I v →
     ∃ v', step (Ok v) entry = Ok v' ∧ I v' ∧ J v' ∧
           v_console v' = v_console v ∧
           (∀ n, n ≠ entry.1 → listings v' !! n = listings v !! n) ∧
           (listings v !! entry.1 = Some entry.2 →
            listings v' !! entry.1 = Some (upd entry.2))) →
  NoDup ls.*1 →
  (∀ entry, entry ∈ ls → listings v0 !! entry.1 = Some entry.2) →
  I v0 →
  ∃ v', fold_left step ls (Ok v0) = Ok v' ∧ I v' ∧ (ls ≠ [] → J v') ∧
        v_console v' = v_console v0 ∧
        (∀ n, n ∉ ls.*1 → listings v' !! n = listings v0 !! n) ∧
        (∀ entry, entry ∈ ls → listings v' !! entry.1 = Some (upd entry.2)).
Proof.
  revert v0. induction ls as [|entry ls IH]; intros v0 Hstep Hnd Hin HI.
  - exists v0. cbn. repeat split; try done.
    intros entry H. by apply elem_of_nil in H.
  - rewrite fmap_cons in Hnd. apply NoDup_cons in Hnd as [Hnotin Hnd].
    destruct (Hstep v0 entry ltac:(by left) HI)
      as (v1 & H1 & HI1 & HJ1 & Hc1 & Ho1 & Hu1).
    specialize (Hu1 (Hin entry ltac:(by left))).
    destruct (IH v1) as (v' & Hf & HI' & HJ' & Hc' & Ho' & Hu').
    { intros v e He. apply Hstep. by right. }
    { done. }
    { intros e He. rewrite Ho1.
      - apply Hin. by right.
      - intros Heq. apply Hnotin. rewrite <- Heq.
        by apply list_elem_of_fmap_2. }
    { done. }
    exists v'. cbn [fold_left]. rewrite H1. split; [done|]. split; [done|].
    split.
    { intros _. destruct ls as [|e ls]; [|by apply HJ'].
      cbn in Hf. by injection Hf as <-. }
    split; [by rewrite Hc'|]. split.
    + intros n Hn. rewrite fmap_cons in Hn.
      apply not_elem_of_cons in Hn as [Hne Hn].
      rewrite (Ho' n Hn). by apply Ho1.
    + intros e [->|He]%elem_of_cons; [|by apply Hu'].
      by rewrite (Ho' _ Hnotin).
Qed.

Lemma map_to_list_fst_absent {A} (m : gmap string A) n :
  n ∉ (map_to_list m).*1 ↔ m !! n = None.
Proof.
  split.
  - intros Hn. destruct (m !! n) as [x|] eqn:Hx; [|done].
    exfalso. apply Hn. apply list_elem_of_fmap. exists (n, x).
    split; [done|]. by apply elem_of_map_to_list.
  - intros Hn ([n' x] & -> & Hin)%list_elem_of_fmap.
    apply elem_of_map_to_list in Hin. cbn in Hn. congruence.
Qed.

Lemma view_setState_loading v :
  view_state_typed (v_box v) →
  view_state_typed (v_box (view_setState {[ "loading"%string := VBool true ]} v)) ∧
  state (v_box (view_setState {[ "loading"%string := VBool true ]} v))
    !! "loading"%string = Some (VBool true).
Proof.
  intros Ht. cbn [view_setState v_box].
  destruct (view_state_typed_same_kind (v_box v)
              {[ "loading"%string := VBool true ]} Ht) as [Hs Ht'].
  { intros k w [<- <-]%lookup_singleton_Some. left. eauto. }
  split; [done|]. rewrite Hs, assign_lookup. by rewrite lookup_singleton_eq.
Qed.

Lemma search_listing_thrown serializeObject input ls :
  fold_left (search_listing serializeObject input) ls TypeError = TypeError.
Proof. induction ls as [|entry ls IH]; [done|]. exact IH. Qed.

(** X11: [search()] on a view whose state holds its entries with their
    types and whose endpoints have a boolean [isFinished].  Without a
    listing nothing happens.  Without an input element the first listing
    makes it throw, on reading [input.value].  With one, no call throws;
    every listing is restarted on page 1, not finished, with its own
    search parameter set to the text of the input, or removed when the
    input is empty (for a search parameter named [__proto__] the query is
    empty and the parameters are only cleaned); no listing appears or
    disappears; and as soon as there is a listing the view is loading. *)
Theorem search_restarts_every_listing
    (serializeObject : object → string) (input : option string) (v : view) :
  view_state_typed (v_box v) →
  (∀ n l, listings v !! n = Some l → flag_is_boolean (l_endpoint l)) →
  (listings v = ∅ → search serializeObject input v = Ok v) ∧
  (input = None → listings v ≠ ∅ →
   search serializeObject input v = TypeError) ∧
  (∀ value, input = Some value →
   ∃ v',
     search serializeObject input v = Ok v' ∧
     v_console v' = v_console v ∧
     (∀ n, listings v' !! n
           = searched serializeObject value <$> listings v !! n) ∧
     (∀ n l, listings v !! n = Some l →
        let key := js_to_string (prop (l_options l) "searchParam") in
        let e' := l_endpoint (searched serializeObject value l) in
        getPage e' = 1 ∧ isFinished e' = false ∧
        (key ≠ "__proto__"%string →
         getParams e' !! key = kept (Some (VStr value))) ∧
        (inherited key = false →
         getParam key e'
         = match kept (Some (VStr value)) with
           | Some text => Own text
           | None => Missing
           end) ∧
        (key = "__proto__"%string →
         getParams e' = delete_empty (getParams (l_endpoint l)))) ∧
     (listings v ≠ ∅ →
      state (v_box v') !! "loading"%string = Some (VBool true))).
Proof.
  intros Ht Hflags. split; [|split].
  - intros He. unfold search. rewrite He, map_to_list_empty. done.
  - intros -> Hne. unfold search.
    destruct (map_to_list (listings v)) as [|entry ls] eqn:Hls.
    + by apply map_to_list_empty_iff in Hls.
    + cbn [fold_left search_listing]. apply search_listing_thrown.
  - intros value ->.
    destruct (fold_listings (search_listing serializeObject (Some value))
                (searched serializeObject value)
                (fun v => view_state_typed (v_box v))
                (fun v => state (v_box v) !! "loading"%string
                          = Some (VBool true))
                (map_to_list (listings v)) v)
      as (v' & Hf & _ & HJ & Hc & Ho & Hu).
    + intros v1 [n l] Hin Ht1. cbn [search_listing fst snd].
      apply elem_of_map_to_list in Hin.
      unfold setListingQuery.
      destruct (view_setState_loading v1 Ht1) as [Ht2 Hl2].
      destruct (setQuery_restart_facts serializeObject (l_endpoint l)
                  (write (js_to_string (prop (l_options l) "searchParam"))
                     (VStr value) ∅) (Hflags _ _ Hin))
        as (p & Hret & _).
      unfold searched.
      destruct (setQuery serializeObject _ true (l_endpoint l)) as [e r].
      cbn [fst snd] in Hret |- *. subst r.
      eexists. split; [reflexivity|].
      cbn [v_box v_console listings with_listing].
      split; [done|]. split; [done|]. split; [done|]. split.
      * intros n' Hne. by rewrite lookup_insert_ne.
      * intros _. apply lookup_insert_eq.
    + apply NoDup_fst_map_to_list.
    + intros [n l] Hin. by apply elem_of_map_to_list in Hin.
    + done.
    + exists v'. split; [exact Hf|]. split; [done|]. split; [|split].
      * intros n. destruct (listings v !! n) as [l|] eqn:Hn.
        -- apply (Hu (n, l)). by apply elem_of_map_to_list.
        -- rewrite Ho; [done|]. by apply map_to_list_fst_absent.
      * intros n l Hn key e'. subst e'. unfold searched. cbn [l_endpoint].
        fold key.
        destruct (setQuery_restart_facts serializeObject (l_endpoint l)
                    (write key (VStr value) ∅) (Hflags _ _ Hn))
          as (p & _ & Hfin & Hpage & _).
        split; [done|]. split; [done|].
        assert (Hown : key ≠ "__proto__"%string →
                  params (setQuery serializeObject (write key (VStr value) ∅)
                            true (l_endpoint l)).1 !! key
                  = kept (Some (VStr value))).
        { intros Hkey. rewrite setQuery_params_lookup.
          rewrite write_not_proto by (by apply String.eqb_neq).
          by rewrite lookup_insert_eq. }
        split; [exact Hown|]. split.
        -- intros Hkey. unfold getParam.
           rewrite (read_not_inherited _ _ Hkey), Hown; [done|].
           apply String.eqb_neq. by apply inherited_not_proto.
        -- intros Hkey. unfold getParams. rewrite setQuery_params.
           unfold write. rewrite Hkey, String.eqb_refl.
           unfold assign. by rewrite (left_id_L ∅ (∪)).
      * intros Hne. apply HJ. intros Hnil.
        by apply map_to_list_empty_iff in Hnil.
Qed.

(** X11, on the view with two listings and an input that reads ["dog"]. *)
Lemma search_witness :
  ∃ v',
    search plain_query_string (Some "dog"%string) two_listings_view = Ok v' ∧
    listing_param "posts" "search" v' = Some (Own (VStr "dog")) ∧
    listing_param "pages" "search" v' = Some (Own (VStr "dog")).
Proof.
  destruct (search_restarts_every_listing plain_query_string
              (Some "dog"%string) two_listings_view) as (_ & _ & Hsearch).
  - exists false, false, 0. by vm_compute.
  - intros n l Hn.
    assert (Hnl : l = posts_listing ∨ l = pages_listing).
    { unfold two_listings_view in Hn. cbn [listings] in Hn.
      apply lookup_insert_Some in Hn as [[_ <-]|[_ Hn]]; [by left|].
      apply lookup_singleton_Some in Hn as [_ <-]. by right. }
    destruct Hnl as [-> | ->]; exists false; by vm_compute.
  - destruct (Hsearch "dog"%string eq_refl) as (v' & Hs & _ & Hl & _).
    exists v'. split; [exact Hs|]. unfold listing_param.
    rewrite !Hl. split; vm_compute; reflexivity.
Defined.

(** The same search on a view that was given no input element. *)
Example search_without_input_throws :
  search plain_query_string None two_listings_view = TypeError.
Proof. vm_compute. reflexivity. Qed.

Lemma NoDup_fst_filter {A} (f : string * A → bool) (l : list (string * A)) :
  NoDup l.*1 → NoDup (List.filter f l).*1.
Proof.
  induction l as [|x l IH]; [done|]. rewrite fmap_cons.
  intros [Hx Hl]%NoDup_cons. cbn [List.filter].
  destruct (f x); [|by apply IH]. rewrite fmap_cons. apply NoDup_cons.
  split; [|by apply IH]. intros ([n a] & Hn & Hin)%list_elem_of_fmap.
  apply Hx. apply list_elem_of_fmap. exists (n, a). split; [done|].
  apply list_elem_of_In in Hin. apply List.filter_In in Hin as [Hin _].
  by apply list_elem_of_In.
Qed.

Lemma scroll_listing_step serializeObject v (entry : string * listing) :
  js_truthy (prop (l_options entry.2) "scroll") = true →
  ∃ v', scroll_listing serializeObject (Ok v) entry = Ok v' ∧
        v_console v' = v_console v ∧
        (∀ n, n ≠ entry.1 → listings v' !! n = listings v !! n) ∧
        (listings v !! entry.1 = Some entry.2 →
         listings v' !! entry.1 = Some (scrolled serializeObject entry.2)).
Proof.
  intros Hscroll. destruct entry as [n l]. cbn [fst snd] in *.
  unfold scroll_listing, scrolled. cbn [fst snd]. rewrite Hscroll.
  destruct (isFinished (l_endpoint l)) eqn:Hfin; cbn [andb negb].
  - by exists v.
  - destruct (get_not_finished serializeObject (l_endpoint l) Hfin)
      as (c & p & _ & ->). cbn [fst].
    eexists. split; [reflexivity|]. cbn [v_console listings with_listing].
    split; [done|]. split.
    + intros n' Hne. by rewrite lookup_insert_ne.
    + intros _. apply lookup_insert_eq.
Qed.

(** X12: the scroll loader never throws and handles each listing on its
    own: a listing with [scroll] set that is not finished asks for its
    next page; a finished listing and a listing without [scroll] are left
    exactly as they are, so that no page counter moves without a request;
    and while the view is not visible, a scroll event changes nothing at
    all. *)
Theorem scroll_get_advances_unfinished_scroll_listings
    (serializeObject : object → string) (v : view) :
  (∃ v',
     scroll_get serializeObject v = Ok v' ∧
     v_console v' = v_console v ∧
     (∀ n, listings v' !! n = scrolled serializeObject <$> listings v !! n)) ∧
  (∀ l, js_truthy (prop (l_options l) "scroll") = false ∨
        isFinished (l_endpoint l) = true →
        scrolled serializeObject l = l) ∧
  (∀ l, js_truthy (prop (l_options l) "scroll") = true →
        isFinished (l_endpoint l) = false →
        getPage (l_endpoint (scrolled serializeObject l))
        = getPage (l_endpoint l) + 1 ∧
        ∃ p, (get serializeObject (l_endpoint l)).2 = BodyOf p) ∧
  (∀ atBottom,
     truthy_prop (state (v_box v) !! "visible"%string) = false →
     onScroll serializeObject atBottom v = Ok v).
Proof.
  split; [|split; [|split]].
  - set (f := fun entry : string * listing =>
                js_truthy (prop (l_options entry.2) "scroll")).
    destruct (fold_listings (scroll_listing serializeObject)
                (scrolled serializeObject) (fun _ => True) (fun _ => True)
                (List.filter f (map_to_list (listings v))) v)
      as (v' & Hf & _ & _ & Hc & Ho & Hu).
    + intros v1 entry [_ Hin]%list_elem_of_In%List.filter_In _.
      destruct (scroll_listing_step serializeObject v1 entry Hin)
        as (v2 & ? & ? & ? & ?). by exists v2.
    + apply NoDup_fst_filter, NoDup_fst_map_to_list.
    + intros [n l] [Hin _]%list_elem_of_In%List.filter_In.
      by apply list_elem_of_In, elem_of_map_to_list in Hin.
    + done.
    + exists v'. split; [exact Hf|]. split; [done|]. intros n.
      destruct (listings v !! n) as [l|] eqn:Hn; cbn [fmap option_fmap option_map].
      * destruct (f (n, l)) eqn:Hfl.
        -- apply (Hu (n, l)). apply list_elem_of_In, List.filter_In.
           split; [|done]. by apply list_elem_of_In, elem_of_map_to_list.
        -- rewrite Ho.
           ++ rewrite Hn. unfold scrolled. unfold f in Hfl. cbn in Hfl.
              by rewrite Hfl.
           ++ intros ([n' l'] & Heq & Hin)%list_elem_of_fmap. cbn in Heq.
              subst n'.
              apply list_elem_of_In, List.filter_In in Hin as [Hin Hfl'].
              apply list_elem_of_In, elem_of_map_to_list in Hin.
              rewrite Hn in Hin. injection Hin as <-. congruence.
      * rewrite Ho; [done|].
        intros ([n' l'] & Heq & Hin)%list_elem_of_fmap. cbn in Heq. subst n'.
        apply list_elem_of_In, List.filter_In in Hin as [Hin _].
        apply list_elem_of_In, elem_of_map_to_list in Hin. congruence.
  - intros l [H|H]; unfold scrolled; rewrite H; [done|].
    by rewrite andb_false_r.
  - intros l Hs Hfin. unfold scrolled. rewrite Hs, Hfin. cbn [andb negb l_endpoint].
    split; [apply get_frame|].
    destruct (get_not_finished serializeObject (l_endpoint l) Hfin)
      as (c & p & _ & ->). by exists p.
  - intros atBottom Hv. unfold onScroll, checkBottom. by rewrite Hv.
Qed.

(** The scroll loader on the view with two listings: the posts, which
    scroll, go to page 1; the pages, which do not, stay on page 0. *)
Example scroll_get_two_listings :
  match scroll_get plain_query_string two_listings_view with
  | Ok v' =>
      (getPage ∘ l_endpoint) <$> listings v' !! "posts"%string = Some 1 ∧
      (getPage ∘ l_endpoint) <$> listings v' !! "pages"%string = Some 0
  | TypeError => False
  end.
Proof. vm_compute. done. Qed.

(** X13: a click on a load-more button asks for the next page of its
    listing when the listing is not finished, and sets the view loading;
    on a finished listing [get()] returns nothing, and the handler, which
    chains [then] on the result, throws. *)
Theorem on_loadMore_click_loads_or_throws
    (serializeObject : object → string) (name : string) (l : listing)
    (v : view) :
  (isFinished (l_endpoint l) = true →
   on_loadMore_click serializeObject name l v = TypeError) ∧
  (isFinished (l_endpoint l) = false →
   ∃ p,
     (get serializeObject (l_endpoint l)).2 = BodyOf p ∧
     on_loadMore_click serializeObject name l v
     = Ok (with_listing name
             {| l_options := l_options l;
                l_endpoint := (get serializeObject (l_endpoint l)).1 |}
             (view_setState {[ "loading"%string := VBool true ]} v)) ∧
     getPage (get serializeObject (l_endpoint l)).1
     = getPage (l_endpoint l) + 1).
Proof.
  unfold on_loadMore_click. split; intros Hfin.
  - by rewrite (get_finished serializeObject _ Hfin).
  - destruct (get_not_finished serializeObject (l_endpoint l) Hfin)
      as (c & p & _ & ->). exists p. done.
Qed.

(** A click on the load-more button of the posts once they are all
    loaded. *)
Example on_loadMore_click_finished_throws :
  let e := run_calls plain_query_string
             [Get; GetThen response_total_30; Get; GetThen response_total_30;
              Get; GetThen response_total_30] posts_endpoint in
  on_loadMore_click plain_query_string "posts"
    {| l_options := l_options posts_listing; l_endpoint := e |} posts_view
  = TypeError.
Proof. vm_compute. reflexivity. Qed.

(** ** Listing creation: what is registered, and when it throws *)

Lemma createListing_valid serializeObject url name c v :
  valid_config c →
  createListing serializeObject url name c v
  = Ok (register name (created serializeObject url c) v).
Proof.
  intros (Hr & Ht & Hf & Hp & Hs). unfold createListing, created.
  cbv zeta in *. rewrite Hr, Ht, Hf. cbn [negb orb].
  unfold has_truthy_length in Hp, Hs.
  destruct (js_length (prop (c ∪ listingDefaults) "pathname")) as [len|];
    [|done]. rewrite Hp. cbn [negb].
  destruct (js_length (prop (c ∪ listingDefaults) "searchParam")) as [len'|];
    [|done]. rewrite Hs. done.
Qed.

Lemma createListings_valid serializeObject url cfg v0 :
  Forall (fun entry : string * options => valid_config entry.2) cfg →
  NoDup cfg.*1 →
  "__proto__"%string ∉ cfg.*1 →
  ∃ v, createListings serializeObject url cfg v0 = Ok v ∧
       v_console v = v_console v0 ∧ v_box v = v_box v0 ∧
       (∀ n, n ∉ cfg.*1 → listings v !! n = listings v0 !! n) ∧
       (∀ n c, (n, c) ∈ cfg →
               listings v !! n = Some (created serializeObject url c)).
Proof.
  revert v0. induction cfg as [|[n c] cfg IH]; intros v0 Hok Hnd Hproto.
  - exists v0. repeat split; try done.
    intros n c H. by apply elem_of_nil in H.
  - apply Forall_cons in Hok as [Hc Hok]. rewrite fmap_cons in Hnd, Hproto.
    apply NoDup_cons in Hnd as [Hn Hnd].
    apply not_elem_of_cons in Hproto as [Hname Hproto]. cbn [fst snd] in *.
    cbn [createListings]. rewrite (createListing_valid _ _ _ _ _ Hc).
    unfold register.
    destruct (String.eqb_spec n "__proto__") as [?|_]; [congruence|].
    destruct (IH (with_listing n (created serializeObject url c) v0) Hok Hnd
                Hproto)
      as (v & Hv & Hcon & Hbox & Hother & Hin).
    exists v. split; [done|]. split; [done|]. split; [done|]. split.
    + intros n' Hn'. rewrite fmap_cons in Hn'.
      apply not_elem_of_cons in Hn' as [Hne Hn'].
      rewrite (Hother _ Hn'). cbn [listings with_listing].
      by rewrite lookup_insert_ne.
    + intros n' c' [[= -> ->]|H']%elem_of_cons; [|by apply Hin].
      rewrite (Hother _ Hn). cbn [listings with_listing].
      apply lookup_insert_eq.
Qed.

Lemma postEndpointFactory_consts serializeObject path cfg parseURL verb url :
  pathname (postEndpointFactory serializeObject path cfg parseURL verb url)
  = path ∧
  method (postEndpointFactory serializeObject path cfg parseURL verb url)
  = verb.
Proof.
  unfold postEndpointFactory. destruct parseURL; [|done].
  apply (run_call_consts serializeObject (SetQuery url true)).
Qed.

(** X14: from a configuration whose listings all pass the checks, under
    distinct names none of which is [__proto__], [searchViewFactory]
    returns a view that holds exactly the configured listings and has
    logged nothing: each listing carries its options merged over the
    defaults and an endpoint of its own on its path, with the method [GET]
    and the [config] entries for parameters; the state of the view is the
    initial one. *)
Theorem searchViewFactory_registers_valid_listings
    (serializeObject : object → string) (url : object)
    (cfg : list (string * options)) :
  cfg ≠ [] →
  Forall (fun entry : string * options => valid_config entry.2) cfg →
  NoDup cfg.*1 →
  "__proto__"%string ∉ cfg.*1 →
  ∃ v,
    searchViewFactory serializeObject url cfg = Ok v ∧
    v_console v = [] ∧
    state (v_box v) = {[ "loading"%string := VBool false;
                         "visible"%string := VBool false;
                         "foundPosts"%string := VNum 0 ]} ∧
    (∀ n, is_Some (listings v !! n) ↔ n ∈ cfg.*1) ∧
    (∀ n c, (n, c) ∈ cfg →
       ∃ l, listings v !! n = Some l ∧
            l_options l = c ∪ listingDefaults ∧
            pathname (l_endpoint l)
            = js_to_string (prop (l_options l) "pathname") ∧
            method (l_endpoint l) = "GET"%string ∧
            config (l_endpoint l)
            = config_object (prop (l_options l) "config")).
Proof.
  intros Hne Hok Hnd Hproto. unfold searchViewFactory.
  destruct cfg as [|entry cfg']; [done|]. set (cfg := entry :: cfg') in *.
  destruct (createListings_valid serializeObject url cfg
              {| v_box := stateMixin {[ "loading"%string := VBool false;
                                        "visible"%string := VBool false;
                                        "foundPosts"%string := VNum 0 ]};
                 listings := ∅; v_console := [] |} Hok Hnd Hproto)
    as (v & Hv & Hcon & Hbox & Hother & Hin).
  exists v. split; [exact Hv|]. split; [done|]. split; [by rewrite Hbox|].
  split.
  - intros n. split.
    + intros Hsome. destruct (decide (n ∈ cfg.*1)) as [?|Hn]; [done|].
      rewrite (Hother _ Hn) in Hsome. cbn in Hsome.
      rewrite lookup_empty in Hsome. by destruct Hsome.
    + intros ([n' c] & -> & Hc)%list_elem_of_fmap. cbn.
      by rewrite (Hin _ _ Hc).
  - intros n c Hc. exists (created serializeObject url c).
    split; [by apply Hin|]. split; [done|].
    cbn [created l_options l_endpoint].
    pose proof (postEndpointFactory_consts serializeObject
                  (js_to_string (prop (c ∪ listingDefaults) "pathname"))
                  (config_object (prop (c ∪ listingDefaults) "config"))
                  (js_truthy (prop (c ∪ listingDefaults) "parseURL"))
                  "GET" url) as (Hp & Hm).
    split; [done|]. split; [done|]. apply postEndpointFactory_config.
Qed.

(** X14, on the configuration of the posts and the pages. *)
Lemma searchViewFactory_two_listings_witness :
  ∃ v,
    searchViewFactory plain_query_string ∅
      [("posts"%string, posts_config); ("pages"%string, pages_config)] = Ok v ∧
    v_console v = [] ∧
    (∀ n, is_Some (listings v !! n) ↔
          n ∈ ["posts"%string; "pages"%string]).
Proof.
  destruct (searchViewFactory_registers_valid_listings plain_query_string ∅
              [("posts"%string, posts_config); ("pages"%string, pages_config)])
    as (v & Hv & Hc & _ & Hdom & _).
  - done.
  - repeat constructor; vm_compute; reflexivity.
  - cbn. apply NoDup_cons. split; [|apply NoDup_singleton].
    intros H%list_elem_of_singleton. discriminate.
  - cbn. intros H.
    repeat (apply elem_of_cons in H as [H|H]; [discriminate|]).
    by apply elem_of_nil in H.
  - exists v. split; [exact Hv|]. split; [exact Hc|]. exact Hdom.
Defined.

(** Under the name [__proto__] a valid configuration is accepted and no
    listing is registered. *)
Example createListing_proto_registers_nothing :
  createListing plain_query_string ∅ "__proto__" posts_config posts_view
  = Ok posts_view.
Proof. vm_compute. reflexivity. Qed.

(** X15: [createListing] throws exactly when the root element and the
    template function are there and then a [length] is read off
    [undefined] or [null]: the [pathname] is one of the two, or it has a
    length that passes and the [searchParam] is one of the two.  In every
    other case it returns, with the listing registered or a warning
    logged. *)
Theorem createListing_throws_iff
    (serializeObject : object → string) (url : object) (name : string)
    (cfg : options) (v : view) :
  let opts := cfg ∪ listingDefaults in
  createListing serializeObject url name cfg v = TypeError ↔
  js_truthy (prop opts "rootEl") = true ∧
  js_truthy (prop opts "template") = true ∧
  not_a_function (prop opts "template") = false ∧
  (nullish (prop opts "pathname") = true ∨
   (has_truthy_length (prop opts "pathname") = true ∧
    nullish (prop opts "searchParam") = true)).
Proof.
  intros opts. unfold createListing. fold opts.
  destruct (js_truthy (prop opts "rootEl")); cbn [negb];
    [|split; [done|by intros [? _]]].
  destruct (js_truthy (prop opts "template")); cbn [negb orb];
    [|split; [done|by intros (_ & ? & _)]].
  destruct (not_a_function (prop opts "template"));
    [split; [done|by intros (_ & _ & ? & _)]|].
  unfold has_truthy_length.
  destruct (prop opts "pathname") as [| |[b|z| |s]|a src|id|o];
    cbn [js_length nullish];
    try (split; [by auto | by intros (_ & _ & _ & [?|[? _]])]);
    try (split; [by auto 6 | done]).
  all: match goal with
       | |- context [js_truthy ?len] => destruct (js_truthy len) eqn:Hlen
       end; cbn [negb];
    try (split; [done | by intros (_ & _ & _ & [?|[? _]])]).
  all: destruct (prop opts "searchParam") as [| |[b'|z'| |s']|a' src'|id'|o'];
    cbn [js_length nullish];
    try (split; [by auto 6 | done]);
    try match goal with
        | |- context [if negb ?b then _ else _] => destruct b
        end; cbn [negb];
    split; try done; by intros (_ & _ & _ & [?|[_ ?]]).
Qed.

(** ** Taxonomy controls that replace, and the totals an endpoint records *)

(** X16: a taxonomy control that is not a checkbox, whose parameter name
    is none of those inherited from [Object.prototype], replaces the active
    slugs by its own: when its slug is already the only active one, the
    handler returns at once and the view, the endpoint and the cache are
    as before; otherwise the parameter becomes that slug alone and the
    listing restarts on page 1. *)
Theorem on_tax_set_replaces
    (serializeObject : object → string) (v : view) (name : string)
    (l : listing) (tax slug : string) (xs : list string) :
  inherited tax = false →
  listings v !! name = Some l →
  flag_is_boolean (l_endpoint l) →
  getParam tax (l_endpoint l) = param_of_slugs xs →
  Forall slug_ok xs →
  slug_ok slug →
  (xs = [slug] → on_tax_set serializeObject tax slug name false v = Ok v) ∧
  (xs ≠ [slug] →
   ∃ v1 l1,
     on_tax_set serializeObject tax slug name false v = Ok v1 ∧
     listings v1 !! name = Some l1 ∧
     getParam tax (l_endpoint l1) = Own (VStr slug) ∧
     getPage (l_endpoint l1) = 1 ∧
     isFinished (l_endpoint l1) = false).
Proof.
  intros Htax Hl Hflag Hparam Hok Hslug.
  assert (Hone : Forall slug_ok [slug]) by (by apply Forall_singleton).
  assert (Hw : write tax (VStr slug) ∅ = ({[ tax := VStr slug ]} : object)).
  { apply write_not_proto. by apply inherited_not_proto. }
  unfold on_tax_set. rewrite Hl, Hparam.
  destruct (split_param_slugs xs Hok) as (parts & -> & ->).
  change (join "," [slug]) with slug. rewrite Hw.
  split.
  - intros ->. change (join "," [slug]) with slug.
    by rewrite String.eqb_refl.
  - intros Hne.
    destruct (String.eqb_spec (join "," xs) slug) as [Heq|_].
    { exfalso. apply Hne. by apply join_slugs_inj. }
    unfold setListingQuery.
    destruct (setQuery_restart_facts serializeObject (l_endpoint l)
                {[ tax := VStr slug ]} Hflag) as (p & Hret & Hfin & Hpage & _).
    pose proof (setQuery_params_lookup serializeObject
                  {[ tax := VStr slug ]} true (l_endpoint l) tax) as Hget.
    destruct (setQuery serializeObject _ true (l_endpoint l)) as [e r].
    cbn [fst snd] in Hret, Hfin, Hpage, Hget. subst r.
    eexists _, _. split; [reflexivity|].
    cbn [listings with_listing l_endpoint].
    split; [apply lookup_insert_eq|]. cbn [l_endpoint]. split; [|done].
    unfold getParam.
    rewrite (read_not_inherited _ _ Htax), Hget, lookup_singleton_eq. cbn.
    destruct Hslug as [Hs _]. by destruct slug.
Qed.

(** X16, on the posts filtered on ["news,events"] and a select set to
    ["sports"]. *)
Lemma on_tax_set_replaces_witness :
  ∃ v1,
    on_tax_set plain_query_string "categories" "sports" "posts" false
      posts_view = Ok v1 ∧
    listing_param "posts" "categories" v1 = Some (Own (VStr "sports")).
Proof.
  assert (Hl : listings posts_view !! "posts"%string = Some posts_listing)
    by (vm_compute; reflexivity).
  assert (Hflag : flag_is_boolean (l_endpoint posts_listing))
    by (exists false; vm_compute; reflexivity).
  assert (Hparam : getParam "categories" (l_endpoint posts_listing)
                   = param_of_slugs ["news"; "events"]%string)
    by (vm_compute; reflexivity).
  assert (Hok : Forall slug_ok ["news"; "events"]%string)
    by (repeat constructor; discriminate).
  assert (Hslug : slug_ok "sports") by (split; [discriminate|reflexivity]).
  destruct (on_tax_set_replaces plain_query_string posts_view "posts"
              posts_listing "categories" "sports" ["news"; "events"]%string
              eq_refl Hl Hflag Hparam Hok Hslug) as [_ Hrep].
  destruct (Hrep ltac:(discriminate)) as (v1 & l1 & Hv1 & Hl1 & Hp & _).
  exists v1. split; [exact Hv1|]. unfold listing_param. rewrite Hl1.
  cbn [fmap option_fmap option_map]. by rewrite Hp.
Defined.

Lemma equal_false_of_NaN (a b : object) k :
  a !! k = Some VNaN → equal a b = false.
Proof.
  intros Hk. destruct (equal a b) eqn:E; [|done].
  apply equal_true_iff in E as [_ E].
  destruct (E _ _ Hk) as (w & _ & Hw). by rewrite loose_equals_NaN_l in Hw.
Qed.

(** X17: on an endpoint whose state holds its entries with their types,
    the callback of [get()] on a response with a total records that total
    as [foundPosts], read with [parseInt], and, for a [per_page] whose
    numeric value is an integer or NaN, the finished flag computed from
    it.  When the total cannot be read as a number, [foundPosts] is
    NaN, the endpoint is not finished, ['listing-finished'] is not
    published, and, NaN being equal to nothing, ['state-set'] is published
    on every such response. *)
Theorem get_then_records_total
    (e : endpoint) (res : response) (total : string) :
  endpoint_state_typed e →
  headers res !! "X-WP-TOTAL"%string = Some total →
  total ≠ EmptyString →
  let e' := (get_then res e).1 in
  state (box e') !! "foundPosts"%string
  = Some (value_of_number (parseInt total)) ∧
  (integral (getParam "per_page" e) →
   state (box e') !! "isFinished"%string
   = Some (VBool (ge (mul (Num (getPage e))
                          (ToNumber (getParam "per_page" e)))
                     (parseInt total)))) ∧
  endpoint_state_typed e' ∧
  (parseInt total = NaN →
   isFinished e' = false ∧
   count_published "listing-finished" (box e')
   = count_published "listing-finished" (box e) ∧
   count_published "state-set" (box e')
   = S (count_published "state-set" (box e))).
Proof.
  intros (b & n & Hb & Hn) Hh Hne e'. subst e'.
  unfold get_then. rewrite Hh. destruct total as [|a total]; [done|].
  unfold getPage.
  set (fin := ge (mul (Num (page e)) (ToNumber (getParam "per_page" e)))
                 (parseInt (String a total))).
  set (data := ({[ "foundPosts"%string
                   := value_of_number (parseInt (String a total));
                   "isFinished"%string := VBool fin ]} : object)).
  assert (Hs : state (setState data (box e)) = assign (state (box e)) data).
  { apply setState_state_same_kind. intros k v w Hk Hw. unfold data in Hk.
    apply lookup_insert_Some in Hk as [[<- <-]|[_ Hk]].
    - rewrite Hn in Hw. injection Hw as <-.
      by destruct (parseInt (String a total)), n.
    - apply lookup_singleton_Some in Hk as [<- <-].
      rewrite Hb in Hw. by injection Hw as <-. }
  assert (Hf : assign (state (box e)) data !! "foundPosts"%string
               = Some (value_of_number (parseInt (String a total)))).
  { rewrite assign_lookup. unfold data. by rewrite lookup_insert_eq. }
  assert (Hi : assign (state (box e)) data !! "isFinished"%string
               = Some (VBool fin)).
  { rewrite assign_lookup. unfold data.
    by rewrite lookup_insert_ne, lookup_singleton_eq. }
  set (e1 := with_box (setState data (box e)) e).
  set (e2 := if fin
             then with_box (publish "listing-finished" [] (box e1)) e1
             else e1).
  change ((e2, body res).1) with e2.
  assert (Hstate : state (box e2) = assign (state (box e)) data).
  { unfold e2. destruct fin; cbn [box with_box publish state]; exact Hs. }
  rewrite Hstate.
  split; [done|]. split; [done|]. split.
  { exists fin, (parseInt (String a total)). by rewrite Hstate. }
  intros Hnan. assert (Hfin : fin = false).
  { unfold fin. rewrite Hnan. by destruct (mul _ _). }
  assert (He2 : e2 = e1) by (unfold e2; by rewrite Hfin).
  split.
  { unfold isFinished. rewrite Hstate, Hi. by rewrite Hfin. }
  rewrite He2. unfold e1. cbn [box with_box].
  split; [by apply setState_count|].
  rewrite setState_changed.
  - unfold count_published. cbn [published].
    rewrite List.filter_app, length_app. cbn [List.filter ev_name].
    rewrite String.eqb_refl. cbn [length]. lia.
  - apply (equal_false_of_NaN _ _ "foundPosts"%string).
    rewrite Hf, Hnan. done.
Qed.

(** X17, on the endpoint of the usage example and a response whose total
    reads ["unknown"]. *)
Lemma get_then_unknown_total_witness :
  let e' := (get_then response_total_unknown
               (get plain_query_string posts_endpoint).1).1 in
  state (box e') !! "foundPosts"%string = Some VNaN ∧
  isFinished e' = false.
Proof.
  intros e'.
  destruct (get_then_records_total (get plain_query_string posts_endpoint).1
              response_total_unknown "unknown")
    as (Hf & _ & _ & Hnan).
  - exists false, (Num 0). split; vm_compute; reflexivity.
  - vm_compute. reflexivity.
  - discriminate.
  - split; [exact Hf|]. by destruct (Hnan eq_refl) as [? _].
Defined.
